(** * kik_unofficial.datatypes.xmpp.chatting: stanza encoders and decoders

    A shallow embedding of [src/kik_unofficial/datatypes/xmpp/chatting.py].

    - A Python [str] is a sequence of code points, here [list N]; [bytes] is
      [list Byte.byte].  [str.encode()] is strict UTF-8.
    - A method that can raise returns an [outcome]; the exceptions are the
      ones CPython raises at the modelled expression.
    - [serialize] takes no clock argument: it reads the wall clock of the
      process through [int(round(time.time() * 1000))].  The process state
      is the record [World]: the binary64 float that [time.time()] returns
      at the call, and the integer that the expression evaluates to.
    - The [message_id] attribute is set by [XMPPElement.__init__], which is
      not part of this file of the repository; it is an explicit argument.
    - A parsed stanza is a [Tag] tree with the accessors of [bs4] that the
      decoders use. *)

From Stdlib Require Import NArith ZArith Lia Ascii String DecimalString DecimalZ.
From Stdlib.Strings Require Import Byte.
From Stdlib.Floats Require Import PrimFloat FloatOps SpecFloat.
From stdpp Require Import base option list gmap strings.

Set Warnings "-register-all".

Local Open Scope N_scope.

(** ** Python strings *)

(** A Rocq string literal cannot hold a double quote, so a literal is written
    with an apostrophe wherever the Python literal has a double quote (none
    of the Python literals of this file holds an apostrophe); [lit] puts the
    double quote back. *)
Definition code_point (a : ascii) : N :=
  let n := N_of_ascii a in if n =? 39 then 34 else n.

Definition lit (s : string) : list N := code_point <$> list_ascii_of_string s.
Arguments lit : simpl never.

(** [str(n)] for a Python [int]. *)
Definition str_int (n : Z) : list N :=
  lit (NilEmpty.string_of_int (Z.to_int n)).

(** [sub in s] for two strings. *)
Fixpoint startswith (sub s : list N) : bool :=
  match sub, s with
  | [], _ => true
  | _ :: _, [] => false
  | a :: sub', b :: s' => (a =? b) && startswith sub' s'
  end.

Fixpoint contains (sub s : list N) : bool :=
  startswith sub s ||
  match s with
  | [] => false
  | _ :: s' => contains sub s'
  end.

(** [s[0:n]] *)
Definition slice_to (n : nat) (s : list N) : list N := take n s.

(** Truth value of an optional string attribute: [None] and [''] are false. *)
Definition truthy (o : option (list N)) : bool :=
  match o with
  | Some (_ :: _) => true
  | _ => false
  end.

(** [str(x)] for an attribute that holds a string or [None]. *)
Definition str_opt (o : option (list N)) : list N :=
  match o with
  | Some s => s
  | None => lit "None"
  end.

(** [str(b).lower()] for a [bool]. *)
Definition str_bool_lower (b : bool) : list N :=
  if b then lit "true" else lit "false".

(** ** Exceptions and results *)

Inductive exn :=
| KeyError (key : list N)
| TypeError (msg : string)
| AttributeError (msg : string)
| IndexError (msg : string)
| ValueError (msg : string)
| OverflowError (msg : string)
| UnicodeEncodeError (position : nat).

Inductive outcome (A : Type) :=
| Returned (a : A)
| Raised (e : exn).
Arguments Returned {A} a.
Arguments Raised {A} e.

#[global] Instance outcome_ret : MRet outcome := λ A a, Returned a.
#[global] Instance outcome_bind : MBind outcome := λ A B f m,
  match m with
  | Returned a => f a
  | Raised e => Raised e
  end.
#[global] Instance outcome_fmap : FMap outcome := λ A B f m,
  match m with
  | Returned a => Returned (f a)
  | Raised e => Raised e
  end.

Definition returns {A} (m : outcome A) : Prop := ∃ a, m = Returned a.
Definition raises {A} (m : outcome A) : Prop := ∃ e, m = Raised e.

(** [[f(x) for x in l]]: the first exception ends the comprehension. *)
Fixpoint comprehension {A B} (f : A → outcome B) (l : list A) : outcome (list B) :=
  match l with
  | [] => Returned []
  | x :: l' => y ← f x; ys ← comprehension f l'; mret (y :: ys)
  end.

(** ** [str.format]

    The templates of this file use the replacement fields [{}] (automatic
    numbering) and [{0}] .. [{7}] (one decimal digit). *)

Definition digit_of (c : N) : option nat :=
  if (48 <=? c) && (c <=? 57) then Some (N.to_nat (c - 48)) else None.

Definition argument (args : list (list N)) (i : nat) : outcome (list N) :=
  match args !! i with
  | Some a => Returned a
  | None => Raised (IndexError "Replacement index out of range for positional args tuple")
  end.

Fixpoint format_from (auto : nat) (tpl : list N) (args : list (list N))
  : outcome (list N) :=
  match tpl with
  | [] => Returned []
  | c :: tpl1 =>
    if c =? 123 then
      match tpl1 with
      | [] => Raised (ValueError "Single '{' encountered in format string")
      | d :: tpl2 =>
        if d =? 125 then
          a ← argument args auto;
          app a <$> format_from (S auto) tpl2 args
        else
          match digit_of d, tpl2 with
          | Some i, e :: tpl3 =>
            if e =? 125 then
              a ← argument args i;
              app a <$> format_from auto tpl3 args
            else Raised (ValueError "unsupported replacement field")
          | _, _ => Raised (ValueError "unsupported replacement field")
          end
      end
    else if c =? 125 then
      Raised (ValueError "Single '}' encountered in format string")
    else cons c <$> format_from auto tpl1 args
  end.

Definition format (tpl : string) (args : list (list N)) : outcome (list N) :=
  format_from 0 (lit tpl) args.

(** ** [str.encode()]: strict UTF-8 *)

Definition byte_of (n : N) : byte :=
  match Byte.of_N n with
  | Some b => b
  | None => Byte.x00
  end.

Definition continuation (n : N) : byte := byte_of (N.lor 128 (N.land n 63)).

(** A [str] holds code points up to 0x10FFFF ([chr] rejects anything above),
    so the four-byte branch covers what is left.  The surrogates
    0xD800 .. 0xDFFF are code points a [str] can hold and the strict codec
    refuses them. *)
Definition utf8 (c : N) : option (list byte) :=
  if c <? 128 then Some [byte_of c]
  else if c <? 2048 then
    Some [byte_of (N.lor 192 (N.shiftr c 6)); continuation c]
  else if c <? 65536 then
    if (55296 <=? c) && (c <=? 57343) then None
    else Some [byte_of (N.lor 224 (N.shiftr c 12));
               continuation (N.shiftr c 6); continuation c]
  else
    Some [byte_of (N.lor 240 (N.shiftr c 18)); continuation (N.shiftr c 12);
          continuation (N.shiftr c 6); continuation c].

Fixpoint encode_from (position : nat) (s : list N) : outcome (list byte) :=
  match s with
  | [] => Returned []
  | c :: s' =>
    match utf8 c with
    | Some bs => app bs <$> encode_from (S position) s'
    | None => Raised (UnicodeEncodeError position)
    end
  end.

Definition str_encode (s : list N) : outcome (list byte) := encode_from 0 s.

Definition is_surrogate (c : N) : bool := (55296 <=? c) && (c <=? 57343).

(** ** Outgoing stanzas *)

(** [round(x)] for a float [x], with no second argument: the nearest
    integer, a tie going to the even one, as an [int].  [m * 2 ^ e] is the
    absolute value of a finite float that is not zero. *)
Definition round_half_even (m : positive) (e : Z) : Z :=
  if (0 <=? e)%Z then (Z.pos m * 2 ^ e)%Z
  else
    let d := (2 ^ (- e))%Z in
    let q := (Z.pos m / d)%Z in
    match (2 * (Z.pos m mod d) ?= d)%Z with
    | Lt => q
    | Gt => (q + 1)%Z
    | Eq => if Z.even q then q else (q + 1)%Z
    end.

Definition round (x : float) : outcome Z :=
  match Prim2SF x with
  | S754_zero _ => Returned 0%Z
  | S754_finite negative m e =>
    let n := round_half_even m e in
    Returned (if negative then (- n)%Z else n)
  | S754_infinity _ => Raised (OverflowError "cannot convert float infinity to integer")
  | S754_nan => Raised (ValueError "cannot convert float NaN to integer")
  end.

(** The state of the process that [serialize] observes without receiving it
    as an argument: [time_time] is what [time.time()] returns at the call,
    the seconds since the epoch as a binary64 float, and [clock_ms] is what
    [int(round(time.time() * 1000))] evaluates to ([int] of an [int] is that
    [int]).  The clock of a process shows a finite time, so the expression
    has a value: a world comes with its reading. *)
Record World := {
  time_time : float;
  clock_ms : Z;
  clock_reading : round (time_time * 1000) = Returned clock_ms;
}.

(** Three times of the clock: a full second, a quarter of a millisecond
    later, and nearly a millisecond later.  The first two have the same
    reading. *)
Definition a_moment : World :=
  {| time_time := 1500000000;
     clock_ms := 1500000000000;
     clock_reading := eq_refl |}.



(** [serialize] takes the element, its [message_id] attribute and the
    world it runs in.  [data] is the local variable of that name, the text
    that [data.encode()] turns into bytes. *)

Module OutgoingChatMessage.
Record t := {
  peer_jid : list N;
  body : list N;
  is_group : bool;
  bot_mention_jid : option (list N);
}.

Section Serialize.
(** [ParsingUtilities.escape_xml] is defined outside this file. *)
Variable escape_xml : list N → list N.

Definition data (self : t) (message_id : list N) (world : World) : outcome (list N) :=
  let timestamp := str_int (clock_ms world) in
  let message_type := if negb (is_group self) then lit "chat" else lit "groupchat" in
  bot_mention_data ←
    (if truthy (bot_mention_jid self)
     then format ("<mention>" ++
                  "<bot>{}</bot>" ++
                  "</mention>") [str_opt (bot_mention_jid self)]
     else Returned (lit ""));
  format ("<message type='{}' to='{}' id='{}' cts='{}'>" ++
          "<body>{}</body>" ++
          "{}" ++
          "<preview>{}</preview>" ++
          "<kik push='true' qos='true' timestamp='{}' />" ++
          "<request xmlns='kik:message:receipt' r='true' d='true' />" ++
          "<ri></ri>" ++
          "</message>")
         [message_type; peer_jid self; message_id; timestamp;
          escape_xml (body self); bot_mention_data;
          escape_xml (slice_to 20 (body self));
          timestamp].

Definition serialize (self : t) (message_id : list N) (world : World)
  : outcome (list byte) :=
  data self message_id world ≫= str_encode.
End Serialize.
End OutgoingChatMessage.

Module OutgoingGroupChatMessage.
(** [super().__init__(group_jid, body, is_group=True, bot_mention_jid=bot_mention_jid)] *)
Definition init (group_jid body : list N) (bot_mention_jid : option (list N))
  : OutgoingChatMessage.t :=
  {| OutgoingChatMessage.peer_jid := group_jid;
     OutgoingChatMessage.body := body;
     OutgoingChatMessage.is_group := true;
     OutgoingChatMessage.bot_mention_jid := bot_mention_jid |}.
End OutgoingGroupChatMessage.

Module OutgoingReadReceipt.
Record t := {
  peer_jid : list N;
  receipt_message_id : list N;
  group_jid : option (list N);
}.

Definition group_line (self : t) : outcome (list N) :=
  format "<g jid='{}' />" [str_opt (group_jid self)].

Definition data (self : t) (message_id : list N) (world : World) : outcome (list N) :=
  let timestamp := str_int (clock_ms world) in
  group_line ← group_line self;
  data ← format ("<message type='receipt' id='{}' to='{}' cts='{}'>" ++
                 "<kik push='false' qos='true' timestamp='{}' />" ++
                 "<receipt xmlns='kik:message:receipt' type='read'>" ++
                 "<msgid id='{}' />" ++
                 "</receipt>")
                [message_id; peer_jid self; timestamp; timestamp;
                 receipt_message_id self];
  if contains (lit "groups") group_line
  then Returned (data ++ group_line ++ lit "</message>")
  else Returned (data ++ lit "</message>").

Definition serialize (self : t) (message_id : list N) (world : World)
  : outcome (list byte) :=
  data self message_id world ≫= str_encode.
End OutgoingReadReceipt.

Module OutgoingDeliveredReceipt.
Record t := {
  peer_jid : list N;
  receipt_message_id : list N;
}.

Definition data (self : t) (message_id : list N) (world : World) : outcome (list N) :=
  let timestamp := str_int (clock_ms world) in
  format ("<message type='receipt' id='{}' to='{}' cts='{}'>" ++
          "<kik push='false' qos='true' timestamp='{}' />" ++
          "<receipt xmlns='kik:message:receipt' type='delivered'>" ++
          "<msgid id='{}' />" ++
          "</receipt>" ++
          "</message>")
         [message_id; peer_jid self; timestamp; timestamp;
          receipt_message_id self].

Definition serialize (self : t) (message_id : list N) (world : World)
  : outcome (list byte) :=
  data self message_id world ≫= str_encode.
End OutgoingDeliveredReceipt.

Module OutgoingIsTypingEvent.
Record t := {
  peer_jid : list N;
  is_typing : bool;
}.

Definition data (self : t) (message_id : list N) (world : World) : outcome (list N) :=
  let timestamp := str_int (clock_ms world) in
  format ("<message type='chat' to='{}' id='{}'>" ++
          "<kik push='false' qos='false' timestamp='{}' />" ++
          "<is-typing val='{}' />" ++
          "</message>")
         [peer_jid self; message_id; timestamp; str_bool_lower (is_typing self)].

Definition serialize (self : t) (message_id : list N) (world : World)
  : outcome (list byte) :=
  data self message_id world ≫= str_encode.
End OutgoingIsTypingEvent.

Module OutgoingGroupIsTypingEvent.
Record t := {
  peer_jid : list N;
  is_typing : bool;
}.

Definition data (self : t) (message_id : list N) (world : World) : outcome (list N) :=
  let timestamp := str_int (clock_ms world) in
  format ("<message type='groupchat' to='{}' id='{}'>" ++
          "<pb></pb>" ++
          "<kik push='false' qos='false' timestamp='{}' />" ++
          "<is-typing val='{}' />" ++
          "</message>")
         [peer_jid self; message_id; timestamp; str_bool_lower (is_typing self)].

Definition serialize (self : t) (message_id : list N) (world : World)
  : outcome (list byte) :=
  data self message_id world ≫= str_encode.
End OutgoingGroupIsTypingEvent.

Module OutgoingLinkShareEvent.
Record t := {
  peer_jid : list N;
  link : list N;
  title : list N;
  text : list N;
  app_name : list N;
}.

Definition message_type (self : t) : list N :=
  if contains (lit "group") (peer_jid self)
  then lit "type='groupchat' xmlns='kik:groups'"
  else lit "type='chat'".

Definition data (self : t) (message_id : list N) (world : World) : outcome (list N) :=
  let message_type := message_type self in
  let timestamp := str_int (clock_ms world) in
  format ("<message {0} to='{1}' id='{2}' cts='{3}'>" ++
          "<pb></pb>" ++
          "<kik push='true' qos='true' timestamp='{3}' />" ++
          "<request xmlns='kik:message:receipt' r='true' d='true' />" ++
          "<content id='{2}' app-id='com.kik.cards' v='2'>" ++
          "<strings>" ++
          "<app-name>{4}</app-name>" ++
          "<layout>article</layout>" ++
          "<title>{5}</title>" ++
          "<text>{6}</text>" ++
          "<allow-forward>true</allow-forward>" ++
          "</strings>" ++
          "<extras />" ++
          "<hashes />" ++
          "<images>" ++
          "</images>" ++
          "<uris>" ++
          "<uri platform='cards'>{7}</uri>" ++
          "<uri></uri>" ++
          "<uri>http://cdn.kik.com/cards/unsupported.html</uri>" ++
          "</uris>" ++
          "</content>" ++
          "</message>")
         [message_type; peer_jid self; message_id; timestamp; app_name self;
          title self; text self; link self].

Definition serialize (self : t) (message_id : list N) (world : World)
  : outcome (list byte) :=
  data self message_id world ≫= str_encode.
End OutgoingLinkShareEvent.

(** The outbound variants, and [serialize] dispatched on the class. *)
Inductive XMPPElement :=
| ChatMessage (e : OutgoingChatMessage.t)
| ReadReceipt (e : OutgoingReadReceipt.t)
| DeliveredReceipt (e : OutgoingDeliveredReceipt.t)
| IsTypingEvent (e : OutgoingIsTypingEvent.t)
| GroupIsTypingEvent (e : OutgoingGroupIsTypingEvent.t)
| LinkShareEvent (e : OutgoingLinkShareEvent.t).

Definition stanza (escape_xml : list N → list N) (el : XMPPElement)
    (message_id : list N) (world : World) : outcome (list N) :=
  match el with
  | ChatMessage e => OutgoingChatMessage.data escape_xml e message_id world
  | ReadReceipt e => OutgoingReadReceipt.data e message_id world
  | DeliveredReceipt e => OutgoingDeliveredReceipt.data e message_id world
  | IsTypingEvent e => OutgoingIsTypingEvent.data e message_id world
  | GroupIsTypingEvent e => OutgoingGroupIsTypingEvent.data e message_id world
  | LinkShareEvent e => OutgoingLinkShareEvent.data e message_id world
  end.

Definition serialize (escape_xml : list N → list N) (el : XMPPElement)
    (message_id : list N) (world : World) : outcome (list byte) :=
  match el with
  | ChatMessage e => OutgoingChatMessage.serialize escape_xml e message_id world
  | ReadReceipt e => OutgoingReadReceipt.serialize e message_id world
  | DeliveredReceipt e => OutgoingDeliveredReceipt.serialize e message_id world
  | IsTypingEvent e => OutgoingIsTypingEvent.serialize e message_id world
  | GroupIsTypingEvent e => OutgoingGroupIsTypingEvent.serialize e message_id world
  | LinkShareEvent e => OutgoingLinkShareEvent.serialize e message_id world
  end.

(** Modelled from the spec: [ParsingUtilities.escape_xml], which this file
    imports from [kik_unofficial.utilities.parsing_utilities]: it replaces
    [&], [<], [>], the double quote and the apostrophe with their XML entity
    forms.  The serializers above take the function as an argument; this one
    instantiates them on concrete inputs. *)
Definition escape_xml (s : list N) : list N :=
  flat_map (λ c,
    if c =? 38 then lit "&amp;"
    else if c =? 60 then lit "&lt;"
    else if c =? 62 then lit "&gt;"
    else if c =? 34 then lit "&quot;"
    else if c =? 39 then lit "&apos;"
    else [c]) s.

(** ** Parsed stanzas: the [bs4] tree and the accessors the decoders use *)

(** A [Tag] has a name, an attribute dictionary and its [contents]: text
    nodes ([NavigableString], left) and child tags (right). *)
Inductive Tag := mkTag {
  name : list N;
  attrs : gmap (list N) (list N);
  contents : list (list N + Tag);
}.

(** The child tags, in document order. *)
Definition children (t : Tag) : list Tag :=
  omap (λ n, match n with inl _ => None | inr c => Some c end) (contents t).

(** [tag.descendants] restricted to tags: document (pre-) order. *)
Fixpoint descendants (t : Tag) : list Tag :=
  match t with
  | mkTag _ _ cs =>
    flat_map (λ n, match n with
                   | inl _ => []
                   | inr c => c :: descendants c
                   end) cs
  end.

(** [tag.findAll(n)] *)
Definition findAll (n : string) (t : Tag) : list Tag :=
  filter (λ c, name c = lit n) (descendants t).

(** [tag.find(n)], which is also what [tag.n] evaluates to *)
Definition find (n : string) (t : Tag) : option Tag := head (findAll n t).

(** [tag.find(n, recursive=False)] *)
Definition find_child (n : string) (t : Tag) : option Tag :=
  head (filter (λ c, name c = lit n) (children t)).

(** [tag.text]: all the strings below the tag, concatenated *)
Fixpoint get_text (t : Tag) : list N :=
  match t with
  | mkTag _ _ cs =>
    flat_map (λ n, match n with
                   | inl s => s
                   | inr c => get_text c
                   end) cs
  end.

(** [tag.string]: the string of a tag with one child (a text node, or a tag
    that has a [string] itself), [None] otherwise *)
Fixpoint string_of (t : Tag) : option (list N) :=
  match t with
  | mkTag _ _ [inl s] => Some s
  | mkTag _ _ [inr c] => string_of c
  | mkTag _ _ _ => None
  end.

(** [tag[key]] *)
Definition getitem (t : Tag) (key : string) : outcome (list N) :=
  match attrs t !! lit key with
  | Some v => Returned v
  | None => Raised (KeyError (lit key))
  end.

(** [x[key]] where [x] is a tag or [None] *)
Definition subscript (x : option Tag) (key : string) : outcome (list N) :=
  match x with
  | Some t => getitem t key
  | None => Raised (TypeError "'NoneType' object is not subscriptable")
  end.

(** [x.a] where [x] is a tag or [None] and [a] an accessor of tags *)
Definition getattr {A} (x : option Tag) (a : string) (get : Tag → A) : outcome A :=
  match x with
  | Some t => Returned (get t)
  | None => Raised (AttributeError ("'NoneType' object has no attribute '" +:+ a +:+ "'"))
  end.

(** [x[key] == 'true'] *)
Definition is_true (x : option Tag) (key : string) : outcome bool :=
  v ← subscript x key; mret (bool_decide (v = lit "true")).

(** ** Incoming stanzas

    Every constructor starts with [super().__init__(data)] of
    [XMPPResponse], a class defined outside this file: it is the argument
    [XMPPResponse_init], and its result is kept in the field [base]. *)

Module IncomingChatMessage.
Record t {Base : Type} := {
  base : Base;
  request_delivered_receipt : bool;
  request_read_receipt : bool;
  status : option (list N);
  preview : option (list N);
  from_jid : list N;
  to_jid : list N;
  body : option (list N);
  is_typing : option bool;
}.
Arguments t : clear implicits.

Section Init.
Context {Base : Type} (XMPPResponse_init : Tag → outcome Base).

(** [data.request[a] == 'true' if data.request else False] *)
Definition request_flag (a : string) (data : Tag) : outcome bool :=
  if find "request" data is Some _ then is_true (find "request" data) a
  else Returned false.

Definition init (data : Tag) : outcome (t Base) :=
  base ← XMPPResponse_init data;
  request_delivered_receipt ← request_flag "d" data;
  request_read_receipt ← request_flag "r" data;
  let status := get_text <$> find "status" data in
  let preview := get_text <$> find "preview" data in
  from_jid ← getitem data "from";
  to_jid ← getitem data "to";
  let body := find_child "body" data in
  let body := get_text <$> body in
  let is_typing := find "is-typing" data in
  is_typing ← (if is_typing is Some _
               then Some <$> is_true is_typing "val"
               else Returned None);
  mret {| base := base;
          request_delivered_receipt := request_delivered_receipt;
          request_read_receipt := request_read_receipt;
          status := status; preview := preview;
          from_jid := from_jid; to_jid := to_jid;
          body := body; is_typing := is_typing |}.
End Init.
End IncomingChatMessage.

Module IncomingGroupChatMessage.
Record t {Base : Type} := {
  chat : IncomingChatMessage.t Base;
  group_jid : list N;
}.
Arguments t : clear implicits.

Section Init.
Context {Base : Type} (XMPPResponse_init : Tag → outcome Base).

Definition init (data : Tag) : outcome (t Base) :=
  chat ← IncomingChatMessage.init XMPPResponse_init data;
  let g := find_child "g" data in
  group_jid ← subscript g "jid";
  mret {| chat := chat; group_jid := group_jid |}.
End Init.
End IncomingGroupChatMessage.

Module IncomingGroupReceiptsEvent.
Record t {Base : Type} := {
  base : Base;
  from_jid : list N;
  to_jid : list N;
  group_jid : list N;
  receipt_ids : list (list N);
  type : list N;
}.
Arguments t : clear implicits.

Section Init.
Context {Base : Type} (XMPPResponse_init : Tag → outcome Base).

Definition init (data : Tag) : outcome (t Base) :=
  base ← XMPPResponse_init data;
  from_jid ← getitem data "from";
  to_jid ← getitem data "to";
  group_jid ← subscript (find "g" data) "jid";
  msgids ← getattr (find "receipt" data) "findAll" (findAll "msgid");
  receipt_ids ← comprehension (λ msgid, getitem msgid "id") msgids;
  type ← subscript (find "receipt" data) "type";
  mret {| base := base; from_jid := from_jid; to_jid := to_jid;
          group_jid := group_jid; receipt_ids := receipt_ids;
          type := type |}.
End Init.
End IncomingGroupReceiptsEvent.

Module IncomingGroupSticker.
Module Uri.
Record t := {
  platform : list N;
  url : list N;
}.

(** [uri] is an element of [content.uris.contents]: a tag or a string.
    A string subscripted with ['platform'] raises a [TypeError]; its message
    is the one of CPython up to 3.10, later versions add the type of the
    index to it. *)
Definition init (uri : list N + Tag) : outcome t :=
  match uri with
  | inr uri =>
    platform ← getitem uri "platform";
    mret {| platform := platform; url := get_text uri |}
  | inl _ => Raised (TypeError "string indices must be integers")
  end.
End Uri.

Record t {Base : Type} := {
  base : Base;
  from_jid : list N;
  group_jid : list N;
  sticker_pack_id : option (list N);
  sticker_url : option (list N);
  sticker_id : option (list N);
  sticker_source : option (list N);
  png_preview : option (list N);
  uris : list Uri.t;
}.
Arguments t : clear implicits.

(** One pass of the loop body: [extras_map[item.key.string] = item.val.text].
    The right side of the assignment is evaluated first, then the key.
    The key is [None] when the [key] tag has no [string]. *)
Definition parse_item (extras_map : gmap (option (list N)) (list N)) (item : Tag)
  : outcome (gmap (option (list N)) (list N)) :=
  v ← getattr (find "val" item) "text" get_text;
  k ← getattr (find "key" item) "string" string_of;
  mret (<[k := v]> extras_map).

Fixpoint parse_items (extras_map : gmap (option (list N)) (list N))
    (items : list Tag) : outcome (gmap (option (list N)) (list N)) :=
  match items with
  | [] => Returned extras_map
  | item :: items' =>
    extras_map ← parse_item extras_map item;
    parse_items extras_map items'
  end.

Definition parse_extras (extras : option Tag)
  : outcome (gmap (option (list N)) (list N)) :=
  let extras_map := ∅ in
  items ← getattr extras "findAll" (findAll "item");
  parse_items extras_map items.

Section Init.
Context {Base : Type} (XMPPResponse_init : Tag → outcome Base).

Definition init (data : Tag) : outcome (t Base) :=
  base ← XMPPResponse_init data;
  let content := find "content" data in
  extras ← getattr content "extras" (find "extras");
  extras_map ← parse_extras extras;
  from_jid ← getitem data "from";
  group_jid ← subscript (find "g" data) "jid";
  let sticker_pack_id := extras_map !! Some (lit "sticker_pack_id") in
  let sticker_url := extras_map !! Some (lit "sticker_url") in
  let sticker_id := extras_map !! Some (lit "sticker_id") in
  let sticker_source := extras_map !! Some (lit "sticker_source") in
  images ← getattr content "images" (find "images");
  png ← getattr images "find" (find "png-preview");
  let png_preview := get_text <$> png in
  uris ← getattr content "uris" (find "uris");
  uris ← (if uris is Some uris
          then comprehension Uri.init (contents uris)
          else Raised (TypeError "'NoneType' object is not iterable"));
  mret {| base := base; from_jid := from_jid; group_jid := group_jid;
          sticker_pack_id := sticker_pack_id; sticker_url := sticker_url;
          sticker_id := sticker_id; sticker_source := sticker_source;
          png_preview := png_preview; uris := uris |}.
End Init.
End IncomingGroupSticker.

Module IncomingMessageReadEvent.
Record t {Base : Type} := {
  base : Base;
  receipt_message_id : list N;
  from_jid : list N;
  group_jid : option (list N);
}.
Arguments t : clear implicits.

Section Init.
Context {Base : Type} (XMPPResponse_init : Tag → outcome Base).

Definition init (data : Tag) : outcome (t Base) :=
  base ← XMPPResponse_init data;
  msgid ← getattr (find "receipt" data) "msgid" (find "msgid");
  receipt_message_id ← subscript msgid "id";
  from_jid ← getitem data "from";
  group_jid ← (if find "g" data is Some _
               then Some <$> subscript (find "g" data) "jid"
               else Returned None);
  mret {| base := base; receipt_message_id := receipt_message_id;
          from_jid := from_jid; group_jid := group_jid |}.
End Init.
End IncomingMessageReadEvent.

Module IncomingMessageDeliveredEvent.
Record t {Base : Type} := {
  base : Base;
  receipt_message_id : list N;
  from_jid : list N;
  group_jid : option (list N);
}.
Arguments t : clear implicits.

Section Init.
Context {Base : Type} (XMPPResponse_init : Tag → outcome Base).

Definition init (data : Tag) : outcome (t Base) :=
  base ← XMPPResponse_init data;
  msgid ← getattr (find "receipt" data) "msgid" (find "msgid");
  receipt_message_id ← subscript msgid "id";
  from_jid ← getitem data "from";
  group_jid ← (if find "g" data is Some _
               then Some <$> subscript (find "g" data) "jid"
               else Returned None);
  mret {| base := base; receipt_message_id := receipt_message_id;
          from_jid := from_jid; group_jid := group_jid |}.
End Init.
End IncomingMessageDeliveredEvent.

Module IncomingIsTypingEvent.
Record t {Base : Type} := {
  base : Base;
  from_jid : list N;
  is_typing : bool;
}.
Arguments t : clear implicits.

Section Init.
Context {Base : Type} (XMPPResponse_init : Tag → outcome Base).

Definition init (data : Tag) : outcome (t Base) :=
  base ← XMPPResponse_init data;
  from_jid ← getitem data "from";
  is_typing ← is_true (find "is-typing" data) "val";
  mret {| base := base; from_jid := from_jid; is_typing := is_typing |}.
End Init.
End IncomingIsTypingEvent.

Module IncomingGroupIsTypingEvent.
Record t {Base : Type} := {
  base : Base;
  from_jid : list N;
  is_typing : bool;
  group_jid : list N;
}.
Arguments t : clear implicits.

Section Init.
Context {Base : Type} (XMPPResponse_init : Tag → outcome Base).

Definition init (data : Tag) : outcome (t Base) :=
  base ← XMPPResponse_init data;
  from_jid ← getitem data "from";
  is_typing ← is_true (find "is-typing" data) "val";
  group_jid ← subscript (find "g" data) "jid";
  mret {| base := base; from_jid := from_jid; is_typing := is_typing;
          group_jid := group_jid |}.
End Init.
End IncomingGroupIsTypingEvent.

(** [Group(group) if group and len(group.contents) > 0 else None], shared by
    the two group notifications below.  [Group] is a class of
    [kik_unofficial.datatypes.peers], outside this file: its constructor is
    the argument [Group_init]. *)
Definition group_of {G : Type} (Group_init : Tag → outcome G) (group : option Tag)
  : outcome (option G) :=
  match group with
  | Some g =>
    if Nat.ltb 0 (length (contents g)) then Some <$> Group_init g
    else Returned None
  | None => Returned None
  end.

(** [x[key] if x and key in x.attrs else None] *)
Definition attribute_if_present (x : option Tag) (key : string)
  : outcome (option (list N)) :=
  match x with
  | Some t =>
    if bool_decide (is_Some (attrs t !! lit key)) then Some <$> getitem t key
    else Returned None
  | None => Returned None
  end.

Module IncomingGroupStatus.
Record t {Base G : Type} := {
  base : Base;
  request_delivered_receipt : bool;
  requets_read_receipt : bool;
  group_jid : list N;
  to_jid : list N;
  status : option (list N);
  status_jid : option (list N);
  group : option G;
}.
Arguments t : clear implicits.

Section Init.
Context {Base G : Type} (XMPPResponse_init : Tag → outcome Base)
  (Group_init : Tag → outcome G).

Definition init (data : Tag) : outcome (t Base G) :=
  base ← XMPPResponse_init data;
  request_delivered_receipt ← IncomingChatMessage.request_flag "d" data;
  requets_read_receipt ← IncomingChatMessage.request_flag "r" data;
  group_jid ← getitem data "from";
  to_jid ← getitem data "to";
  let status := find_child "status" data in
  let status_text := get_text <$> status in
  status_jid ← attribute_if_present status "jid";
  let group := find_child "g" data in
  group ← group_of Group_init group;
  mret {| base := base;
          request_delivered_receipt := request_delivered_receipt;
          requets_read_receipt := requets_read_receipt;
          group_jid := group_jid; to_jid := to_jid;
          status := status_text; status_jid := status_jid; group := group |}.
End Init.
End IncomingGroupStatus.

Module IncomingGroupSysmsg.
Record t {Base G : Type} := {
  base : Base;
  request_delivered_receipt : bool;
  requets_read_receipt : bool;
  group_jid : list N;
  to_jid : list N;
  sysmsg_xmlns : option (list N);
  sysmsg : option (list N);
  group : option G;
}.
Arguments t : clear implicits.

Section Init.
Context {Base G : Type} (XMPPResponse_init : Tag → outcome Base)
  (Group_init : Tag → outcome G).

Definition init (data : Tag) : outcome (t Base G) :=
  base ← XMPPResponse_init data;
  request_delivered_receipt ← IncomingChatMessage.request_flag "d" data;
  requets_read_receipt ← IncomingChatMessage.request_flag "r" data;
  group_jid ← getitem data "from";
  to_jid ← getitem data "to";
  let sysmsg := find_child "sysmsg" data in
  sysmsg_xmlns ← attribute_if_present sysmsg "xmlns";
  let sysmsg_text := get_text <$> sysmsg in
  let group := find_child "g" data in
  group ← group_of Group_init group;
  mret {| base := base;
          request_delivered_receipt := request_delivered_receipt;
          requets_read_receipt := requets_read_receipt;
          group_jid := group_jid; to_jid := to_jid;
          sysmsg_xmlns := sysmsg_xmlns; sysmsg := sysmsg_text; group := group |}.
End Init.
End IncomingGroupSysmsg.

Module IncomingFriendAttribution.
Record t {Base : Type} := {
  base : Base;
  context_type : list N;
  referrer_jid : list N;
  reply : bool;
  body : list N;
}.
Arguments t : clear implicits.

Section Init.
Context {Base : Type} (XMPPResponse_init : Tag → outcome Base).

Definition init (data : Tag) : outcome (t Base) :=
  base ← XMPPResponse_init data;
  let friend_attribution := find "friend-attribution" data in
  context ← getattr friend_attribution "context" (find "context");
  context_type ← subscript context "type";
  referrer_jid ← subscript context "referrer";
  reply ← is_true context "reply";
  body ← getattr friend_attribution "body" (find "body");
  body ← getattr body "text" get_text;
  mret {| base := base; context_type := context_type;
          referrer_jid := referrer_jid; reply := reply; body := body |}.
End Init.
End IncomingFriendAttribution.

Module IncomingStatusResponse.
Record t {Base : Type} := {
  base : Base;
  from_jid : list N;
  status : list N;
  special_visibility : bool;
  status_jid : list N;
}.
Arguments t : clear implicits.

Section Init.
Context {Base : Type} (XMPPResponse_init : Tag → outcome Base).

Definition init (data : Tag) : outcome (t Base) :=
  base ← XMPPResponse_init data;
  let status := find "status" data in
  from_jid ← getitem data "from";
  status_text ← getattr status "text" get_text;
  special_visibility ← is_true status "special-visibility";
  status_jid ← subscript status "jid";
  mret {| base := base; from_jid := from_jid; status := status_text;
          special_visibility := special_visibility; status_jid := status_jid |}.
End Init.
End IncomingStatusResponse.

Module IncomingImageMessage.
Record t {Base : Type} := {
  base : Base;
  request_delivered_receipt : bool;
  requets_read_receipt : bool;
  image_url : option (list N);
  status : option (list N);
  from_jid : list N;
  to_jid : list N;
  group_jid : option (list N);
}.
Arguments t : clear implicits.

Section Init.
Context {Base : Type} (XMPPResponse_init : Tag → outcome Base).

Definition init (data : Tag) : outcome (t Base) :=
  base ← XMPPResponse_init data;
  request_delivered_receipt ← is_true (find "request" data) "d";
  requets_read_receipt ← is_true (find "request" data) "r";
  let image_url := get_text <$> find "file-url" data in
  let status := get_text <$> find "status" data in
  from_jid ← getitem data "from";
  to_jid ← getitem data "to";
  group_jid ← (if find "g" data is Some _
               then Some <$> subscript (find "g" data) "jid"
               else Returned None);
  mret {| base := base;
          request_delivered_receipt := request_delivered_receipt;
          requets_read_receipt := requets_read_receipt;
          image_url := image_url; status := status;
          from_jid := from_jid; to_jid := to_jid; group_jid := group_jid |}.
End Init.
End IncomingImageMessage.

Module IncomingGifMessage.
Module Uri.
Record t := {
  file_content_type : list N;
  type : list N;
  url : list N;
}.

Definition init (uri : list N + Tag) : outcome t :=
  match uri with
  | inr uri =>
    file_content_type ← getitem uri "file-content-type";
    type ← getitem uri "type";
    mret {| file_content_type := file_content_type; type := type;
            url := get_text uri |}
  | inl _ => Raised (TypeError "string indices must be integers")
  end.
End Uri.

Record t {Base : Type} := {
  base : Base;
  request_delivered_receipt : bool;
  requets_read_receipt : bool;
  status : option (list N);
  from_jid : list N;
  to_jid : list N;
  group_jid : list N;
  uris : list Uri.t;
}.
Arguments t : clear implicits.

Section Init.
Context {Base : Type} (XMPPResponse_init : Tag → outcome Base).

Definition init (data : Tag) : outcome (t Base) :=
  base ← XMPPResponse_init data;
  request_delivered_receipt ← is_true (find "request" data) "d";
  requets_read_receipt ← is_true (find "request" data) "r";
  let status := get_text <$> find "status" data in
  from_jid ← getitem data "from";
  to_jid ← getitem data "to";
  group_jid ← subscript (find "g" data) "jid";
  uris ← getattr (find "content" data) "uris" (find "uris");
  uris ← (if uris is Some uris
          then comprehension Uri.init (contents uris)
          else Raised (TypeError "'NoneType' object is not iterable"));
  mret {| base := base;
          request_delivered_receipt := request_delivered_receipt;
          requets_read_receipt := requets_read_receipt;
          status := status; from_jid := from_jid; to_jid := to_jid;
          group_jid := group_jid; uris := uris |}.
End Init.
End IncomingGifMessage.

Module IncomingVideoMessage.
Record t {Base : Type} := {
  base : Base;
  request_delivered_receipt : bool;
  requets_read_receipt : bool;
  video_url : list N;
  file_content_type : option (list N);
  duration_milliseconds : option (list N);
  file_size : list N;
  from_jid : list N;
  to_jid : list N;
  group_jid : list N;
}.
Arguments t : clear implicits.

Section Init.
Context {Base : Type} (XMPPResponse_init : Tag → outcome Base).

Definition init (data : Tag) : outcome (t Base) :=
  base ← XMPPResponse_init data;
  request_delivered_receipt ← is_true (find "request" data) "d";
  requets_read_receipt ← is_true (find "request" data) "r";
  video_url ← getattr (find "file-url" data) "text" get_text;
  let file_content_type := get_text <$> find "file-content-type" data in
  let duration_milliseconds := get_text <$> find "duration" data in
  file_size ← getattr (find "file-size" data) "text" get_text;
  from_jid ← getitem data "from";
  to_jid ← getitem data "to";
  group_jid ← subscript (find "g" data) "jid";
  mret {| base := base;
          request_delivered_receipt := request_delivered_receipt;
          requets_read_receipt := requets_read_receipt;
          video_url := video_url; file_content_type := file_content_type;
          duration_milliseconds := duration_milliseconds;
          file_size := file_size; from_jid := from_jid; to_jid := to_jid;
          group_jid := group_jid |}.
End Init.
End IncomingVideoMessage.

Module IncomingCardMessage.
Record t {Base : Type} := {
  base : Base;
  request_delivered_receipt : bool;
  request_read_receipt : bool;
  from_jid : list N;
  to_jid : list N;
  group_jid : list N;
  app_name : option (list N);
  card_icon : option (list N);
  layout : option (list N);
  title : option (list N);
  text : option (list N);
  allow_forward : option (list N);
  icon : option (list N);
  uri : option (list N);
}.
Arguments t : clear implicits.

Section Init.
Context {Base : Type} (XMPPResponse_init : Tag → outcome Base).

Definition init (data : Tag) : outcome (t Base) :=
  base ← XMPPResponse_init data;
  request_delivered_receipt ← is_true (find "request" data) "d";
  request_read_receipt ← is_true (find "request" data) "r";
  from_jid ← getitem data "from";
  to_jid ← getitem data "to";
  group_jid ← subscript (find "g" data) "jid";
  let app_name := get_text <$> find "app-name" data in
  let card_icon := get_text <$> find "card-icon" data in
  let layout := get_text <$> find "layout" data in
  let title := get_text <$> find "title" data in
  let text := get_text <$> find "text" data in
  let allow_forward := get_text <$> find "allow-forward" data in
  let icon := get_text <$> find "icon" data in
  let uri := get_text <$> find "uri" data in
  mret {| base := base;
          request_delivered_receipt := request_delivered_receipt;
          request_read_receipt := request_read_receipt;
          from_jid := from_jid; to_jid := to_jid; group_jid := group_jid;
          app_name := app_name; card_icon := card_icon; layout := layout;
          title := title; text := text; allow_forward := allow_forward;
          icon := icon; uri := uri |}.
End Init.
End IncomingCardMessage.

(** ** Vocabulary of the properties *)

(** A byte-string literal. *)
Definition blit (s : string) : list byte := byte_of <$> lit s.

(** The text of a group-identifier element. *)
Definition g_element (jid : list N) : list N := lit "<g jid='" ++ jid ++ lit "' />".

(** The stanza text closes with a group-identifier element as the last child
    of [message], the one place where the read-receipt template puts it. *)
Definition has_group_element (text : list N) : Prop :=
  ∃ before jid, text = before ++ g_element jid ++ lit "</message>".

(** No code point of the text is a surrogate. *)
Definition encodable (s : list N) : Prop := Forall (λ c, is_surrogate c = false) s.

(** The number of places where [sub] occurs in [s]. *)
Fixpoint occurrences (sub s : list N) : nat :=
  ((if startswith sub s then 1 else 0) +
   match s with
   | [] => 0
   | _ :: s' => occurrences sub s'
   end)%nat.

(** The string holds no [<]: put into a template, it opens no tag. *)
Definition no_markup (s : list N) : Prop := Forall (λ c, c ≠ 60) s.

(** The text of a receipt stanza up to and including [</receipt>]. *)
Definition receipt_text (type : string)
    (message_id peer_jid timestamp receipt_message_id : list N) : list N :=
  lit "<message type='receipt' id='" ++ message_id ++ lit "' to='" ++
  peer_jid ++ lit "' cts='" ++ timestamp ++
  lit "'><kik push='false' qos='true' timestamp='" ++ timestamp ++
  lit "' /><receipt xmlns='kik:message:receipt' type='" ++ lit type ++
  lit "'><msgid id='" ++ receipt_message_id ++ lit "' />" ++ lit "</receipt>".

(** The mention element of a chat message, or nothing. *)
Definition mention_text (bot_mention_jid : option (list N)) : list N :=
  if truthy bot_mention_jid
  then lit "<mention><bot>" ++ str_opt bot_mention_jid ++ lit "</bot></mention>"
  else [].

(** What follows the preview text in a chat message. *)
Definition preview_tail (timestamp : list N) : list N :=
  lit "</preview><kik push='true' qos='true' timestamp='" ++ timestamp ++
  lit "' /><request xmlns='kik:message:receipt' r='true' d='true' /><ri></ri></message>".

(** The three [uri] elements of a link share, in order. *)
Definition uri_elements (link : list N) : list (list N) :=
  [ lit "<uri platform='cards'>" ++ link ++ lit "</uri>";
    lit "<uri></uri>";
    lit "<uri>http://cdn.kik.com/cards/unsupported.html</uri>" ].

(** What a link share opens with, for a group and for a single peer. *)
Definition link_share_opening (group : bool) : list N :=
  if group then lit "<message type='groupchat' xmlns='kik:groups' to='"
  else lit "<message type='chat' to='".

(** Elements and stanzas used as concrete inputs below. *)
Definition receipt_bare_group_id : OutgoingReadReceipt.t :=
  {| OutgoingReadReceipt.peer_jid := lit "alice_k3x@talk.kik.com";
     OutgoingReadReceipt.receipt_message_id := lit "m-1";
     OutgoingReadReceipt.group_jid := Some (lit "1100221067977_g") |}.

Definition receipt_group : OutgoingReadReceipt.t :=
  {| OutgoingReadReceipt.peer_jid := lit "alice_k3x@talk.kik.com";
     OutgoingReadReceipt.receipt_message_id := lit "m-1";
     OutgoingReadReceipt.group_jid := Some (lit "1100221067977_g@groups.kik.com") |}.

Definition delivered_receipt : OutgoingDeliveredReceipt.t :=
  {| OutgoingDeliveredReceipt.peer_jid := lit "bob@talk.kik.com";
     OutgoingDeliveredReceipt.receipt_message_id := lit "m-1" |}.

Definition chat_message (body : list N) : OutgoingChatMessage.t :=
  {| OutgoingChatMessage.peer_jid := lit "bob@talk.kik.com";
     OutgoingChatMessage.body := body;
     OutgoingChatMessage.is_group := false;
     OutgoingChatMessage.bot_mention_jid := None |}.

(** [item.key.string] and [item.val.text] where the item has the tag. *)
Definition item_key (item : Tag) : option (option (list N)) :=
  string_of <$> find "key" item.
Definition item_val (item : Tag) : option (list N) :=
  get_text <$> find "val" item.

(** Stanzas written down as trees. *)
Definition tag (n : string) (attributes : list (string * string))
    (contents : list (list N + Tag)) : Tag :=
  mkTag (lit n) (list_to_map (prod_map lit lit <$> attributes)) contents.
Definition element (n : string) (attributes : list (string * string))
    (contents : list (list N + Tag)) : list N + Tag :=
  inr (tag n attributes contents).
Definition text_node (s : string) : list N + Tag := inl (lit s).

(** A base-class constructor that returns. *)
Definition base_returns (data : Tag) : outcome () := Returned ().

(** A chat message whose [request] element has the attribute [r] and no [d]. *)
Definition chat_request_without_d : Tag :=
  tag "message" [("from", "alice_k3x@talk.kik.com"); ("to", "bob@talk.kik.com")]
    [ element "body" [] [text_node "hi"];
      element "request" [("r", "true")] [] ].

(** A chat message that asks for a delivered receipt only, and has no [g]. *)
Definition chat_request_d_only : Tag :=
  tag "message" [("from", "alice_k3x@talk.kik.com"); ("to", "bob@talk.kik.com")]
    [ element "body" [] [text_node "hi"];
      element "request" [("d", "true"); ("r", "false")] [] ].

(** A sticker with the extras [sticker_pack_id = abc] and [sticker_id = 7]. *)
Definition sticker : Tag :=
  tag "message" [("from", "1100221067977_g@groups.kik.com")]
    [ element "g" [("jid", "1100221067977_g@groups.kik.com")] [];
      element "content" [("app-id", "com.kik.ext.stickers")]
        [ element "extras" []
            [ element "item" []
                [ element "key" [] [text_node "sticker_pack_id"];
                  element "val" [] [text_node "abc"] ];
              element "item" []
                [ element "key" [] [text_node "sticker_id"];
                  element "val" [] [text_node "7"] ] ];
          element "images" [] [element "png-preview" [] [text_node "iVBOR"]];
          element "uris" [] [element "uri" [("platform", "cards")] [text_node "https://x"]] ] ].

(** Group receipts for three messages, two of them with the same id. *)
Definition group_receipts : Tag :=
  tag "message" [("from", "alice_k3x@talk.kik.com"); ("to", "bob@talk.kik.com")]
    [ element "g" [("jid", "1100221067977_g@groups.kik.com")] [];
      element "receipt" [("type", "read")]
        [ element "msgid" [("id", "m-2")] [];
          element "msgid" [("id", "m-1")] [];
          element "msgid" [("id", "m-2")] [] ] ].

(** Extras that give [sticker_id] twice, around another key. *)
Definition extras_with_duplicate : Tag :=
  tag "extras" []
    [ element "item" []
        [element "key" [] [text_node "sticker_id"]; element "val" [] [text_node "7"]];
      element "item" []
        [element "key" [] [text_node "origin"]; element "val" [] [text_node "keyboard"]];
      element "item" []
        [element "key" [] [text_node "sticker_id"]; element "val" [] [text_node "8"]] ].

(** The strings that a serializer puts into its stanza besides the clock
    reading and the fixed text. *)
Definition placed_strings (escape_xml : list N → list N) (el : XMPPElement)
    (message_id : list N) : list (list N) :=
  match el with
  | ChatMessage e =>
    [ OutgoingChatMessage.peer_jid e; message_id;
      escape_xml (OutgoingChatMessage.body e);
      mention_text (OutgoingChatMessage.bot_mention_jid e);
      escape_xml (slice_to 20 (OutgoingChatMessage.body e)) ]
  | ReadReceipt e =>
    [ message_id; OutgoingReadReceipt.peer_jid e;
      OutgoingReadReceipt.receipt_message_id e ] ++
    (if contains (lit "groups") (str_opt (OutgoingReadReceipt.group_jid e))
     then [str_opt (OutgoingReadReceipt.group_jid e)] else [])
  | DeliveredReceipt e =>
    [ message_id; OutgoingDeliveredReceipt.peer_jid e;
      OutgoingDeliveredReceipt.receipt_message_id e ]
  | IsTypingEvent e => [OutgoingIsTypingEvent.peer_jid e; message_id]
  | GroupIsTypingEvent e => [OutgoingGroupIsTypingEvent.peer_jid e; message_id]
  | LinkShareEvent e =>
    [ OutgoingLinkShareEvent.peer_jid e; message_id;
      OutgoingLinkShareEvent.app_name e; OutgoingLinkShareEvent.title e;
      OutgoingLinkShareEvent.text e; OutgoingLinkShareEvent.link e ]
  end.

(** A read receipt for [m-2], then [m-1], from a member of a group. *)
Definition read_event_stanza : Tag :=
  tag "message" [("from", "alice_k3x@talk.kik.com"); ("to", "bob@talk.kik.com")]
    [ element "receipt" [("type", "read")]
        [ element "msgid" [("id", "m-2")] [];
          element "msgid" [("id", "m-1")] [] ];
      element "g" [("jid", "1100221067977_g@groups.kik.com")] [] ].



(** A group status notification whose [g] element is empty. *)
Definition group_status_stanza : Tag :=
  tag "message" [("from", "1100221067977_g@groups.kik.com"); ("to", "bob@talk.kik.com")]
    [ element "status" [("jid", "alice_k3x@talk.kik.com")] [text_node "alice has joined the chat"];
      element "g" [("jid", "1100221067977_g@groups.kik.com")] [] ].

(** A gif with two alternatives. *)
Definition gif_stanza : Tag :=
  tag "message" [("from", "alice_k3x@talk.kik.com"); ("to", "bob@talk.kik.com")]
    [ element "request" [("d", "true"); ("r", "true")] [];
      element "g" [("jid", "1100221067977_g@groups.kik.com")] [];
      element "content" []
        [ element "uris" []
            [ element "uri" [("file-content-type", "video/mp4"); ("type", "video")]
                [text_node "https://example.org/a.mp4"];
              element "uri" [("file-content-type", "video/webm"); ("type", "video")]
                [text_node "https://example.org/a.webm"] ] ] ].

(** [Group] for the stanzas above: the constructor is never reached. *)
Definition group_returns (g : Tag) : outcome () := Returned ().

(** A typing notification from a group with no [is-typing] element, and a
    chat message with neither a [g] child nor a [from] attribute. *)
Definition group_typing_without_is_typing : Tag :=
  tag "message" [("from", "alice_k3x@talk.kik.com"); ("to", "bob@talk.kik.com")]
    [ element "g" [("jid", "1100221067977_g@groups.kik.com")] [] ].

Definition chat_without_g_and_from : Tag :=
  tag "message" [("to", "bob@talk.kik.com")]
    [ element "body" [] [text_node "hi"] ].

(** A sticker whose extras have a key that no field reads, between the two
    that are read. *)
Definition sticker_with_unknown_key : Tag :=
  tag "message" [("from", "1100221067977_g@groups.kik.com")]
    [ element "g" [("jid", "1100221067977_g@groups.kik.com")] [];
      element "content" [("app-id", "com.kik.ext.stickers")]
        [ element "extras" []
            [ element "item" []
                [ element "key" [] [text_node "sticker_pack_id"];
                  element "val" [] [text_node "abc"] ];
              element "item" []
                [ element "key" [] [text_node "origin"];
                  element "val" [] [text_node "keyboard"] ];
              element "item" []
                [ element "key" [] [text_node "sticker_id"];
                  element "val" [] [text_node "7"] ] ];
          element "images" [] [];
          element "uris" [] [element "uri" [("platform", "cards")] [text_node "https://x"]] ] ].

(** A link share to a user whose name begins with [group], and one whose
    link holds markup. *)
Definition link_share_to_groupie : OutgoingLinkShareEvent.t :=
  {| OutgoingLinkShareEvent.peer_jid := lit "groupie_x1@talk.kik.com";
     OutgoingLinkShareEvent.link := lit "https://example.org/a";
     OutgoingLinkShareEvent.title := lit "Title";
     OutgoingLinkShareEvent.text := lit "Text";
     OutgoingLinkShareEvent.app_name := lit "App" |}.

Definition link_share_with_markup : OutgoingLinkShareEvent.t :=
  {| OutgoingLinkShareEvent.peer_jid := lit "bob@talk.kik.com";
     OutgoingLinkShareEvent.link := lit "a</uri><uri>b";
     OutgoingLinkShareEvent.title := lit "Title";
     OutgoingLinkShareEvent.text := lit "Text";
     OutgoingLinkShareEvent.app_name := lit "App" |}.

(** * Properties *)

(** ** Strings *)

Lemma startswith_app_other (sub s rest : list N) (q : N) :
  sub ≠ [] → Forall (λ c, c ≠ q) sub →
  startswith sub (s ++ q :: rest) = startswith sub s.
Proof.
  intros Hne Hq. revert s.
  induction Hq as [|a sub' Ha Hsub IH]; [done|].
  intros [|b s]; simpl.
  - apply N.eqb_neq in Ha. by rewrite Ha.
  - destruct sub' as [|a' sub'']; [done|].
    by rewrite IH.
Qed.

Lemma contains_app_other (sub s rest : list N) (q : N) :
  sub ≠ [] → Forall (λ c, c ≠ q) sub →
  contains sub (s ++ q :: rest) = contains sub s || contains sub (q :: rest).
Proof.
  intros Hne Hq. induction s as [|b s IH].
  - destruct sub; [done|]. simpl. done.
  - change ((b :: s) ++ q :: rest) with (b :: (s ++ q :: rest)).
    cbn [contains]. rewrite IH.
    change (b :: s ++ q :: rest) with ((b :: s) ++ q :: rest).
    rewrite startswith_app_other by done.
    by rewrite orb_assoc.
Qed.

(** ['groups' in group_line] looks at the identifier only: the fixed parts of
    the line cannot take part in a match. *)
Lemma contains_groups_group_line (jid : list N) :
  contains (lit "groups") (lit "<g jid='" ++ jid ++ lit "' />")
  = contains (lit "groups") jid.
Proof.
  change (lit "<g jid='" ++ jid ++ lit "' />")
    with (60 :: 103 :: 32 :: 106 :: 105 :: 100 :: 61 :: 34 :: (jid ++ 34 :: lit " />")).
  change (lit "groups") with [103; 114; 111; 117; 112; 115].
  cbn [contains startswith N.eqb Pos.eqb andb orb].
  rewrite contains_app_other.
  - rewrite orb_comm. reflexivity.
  - done.
  - repeat constructor; done.
Qed.

Lemma startswith_app (sub s rest : list N) :
  startswith sub s = true → startswith sub (s ++ rest) = true.
Proof.
  revert s. induction sub as [|a sub IH]; intros [|b s]; simpl; try done.
  intros [-> H]%andb_true_iff. by rewrite IH.
Qed.

Lemma contains_app_l (sub s rest : list N) :
  contains sub s = true → contains sub (s ++ rest) = true.
Proof.
  induction s as [|b s IH].
  - destruct sub; [|done]. intros _. by destruct rest.
  - change ((b :: s) ++ rest) with (b :: (s ++ rest)). cbn [contains].
    intros [H|H]%orb_true_iff.
    + change (b :: s ++ rest) with ((b :: s) ++ rest).
      by rewrite startswith_app.
    + rewrite IH by done. apply orb_true_r.
Qed.

Lemma contains_app_r (sub s rest : list N) :
  contains sub rest = true → contains sub (s ++ rest) = true.
Proof.
  intros H. induction s as [|b s IH]; [done|].
  change ((b :: s) ++ rest) with (b :: (s ++ rest)). cbn [contains].
  rewrite IH. apply orb_true_r.
Qed.

(** A string without [<] cannot hold the start of a tag. *)
Lemma contains_no_markup (sub field rest : list N) :
  no_markup field →
  contains (60 :: sub) (field ++ rest) = contains (60 :: sub) rest.
Proof.
  induction 1 as [|c field Hc _ IH]; [done|].
  change ((c :: field) ++ rest) with (c :: (field ++ rest)).
  cbn [contains startswith]. rewrite IH.
  apply N.eqb_neq in Hc. rewrite N.eqb_sym in Hc. by rewrite Hc.
Qed.

Lemma occurrences_no_markup (sub field rest : list N) :
  no_markup field →
  occurrences (60 :: sub) (field ++ rest) = occurrences (60 :: sub) rest.
Proof.
  induction 1 as [|c field Hc _ IH]; [done|].
  change ((c :: field) ++ rest) with (c :: (field ++ rest)).
  cbn [occurrences startswith]. rewrite IH.
  apply N.eqb_neq in Hc. rewrite N.eqb_sym in Hc. by rewrite Hc.
Qed.

Lemma no_markup_str_int (n : Z) : no_markup (str_int n).
Proof.
  unfold str_int.
  assert (∀ d, no_markup (lit (NilEmpty.string_of_uint d))) as Huint.
  { induction d; try (by constructor); by (constructor; [|done]). }
  destruct (Z.to_int n); simpl; [apply Huint|].
  constructor; [done|]. apply Huint.
Qed.

(** Steps over the fields and the literals of a stanza text in search of a
    tag: a field without markup is skipped, a literal is searched by
    evaluation. *)
Ltac skip_markup :=
  repeat first
    [ rewrite contains_no_markup by (assumption || apply no_markup_str_int)
    | rewrite occurrences_no_markup by (assumption || apply no_markup_str_int)
    | match goal with
      | |- context [contains ?p (lit ?l ++ ?x)] =>
        replace (contains p (lit l ++ x)) with (contains p x)
          by (generalize x; intro; vm_compute; reflexivity)
      | |- context [occurrences ?p (lit ?l ++ ?x)] =>
        let k := eval vm_compute in (occurrences p (lit l)) in
        replace (occurrences p (lit l ++ x)) with (k + occurrences p x)%nat
          by (generalize x; intro; vm_compute; reflexivity)
      end ].

(** ** Encoding *)

Lemma utf8_None (c : N) : utf8 c = None ↔ is_surrogate c = true.
Proof.
  unfold utf8, is_surrogate.
  destruct (N.ltb_spec c 128), (N.ltb_spec c 2048), (N.ltb_spec c 65536),
    (N.leb_spec 55296 c), (N.leb_spec c 57343); simpl; split; try done; lia.
Qed.

Lemma encode_from_returns (position : nat) (s : list N) :
  returns (encode_from position s) ↔ encodable s.
Proof.
  revert position. induction s as [|c s IH]; intros position; simpl.
  - split; [constructor | by eexists].
  - unfold encodable in *. rewrite Forall_cons, <- (IH (S position)).
    destruct (utf8 c) as [bs|] eqn:Hc.
    + assert (is_surrogate c = false) as ->.
      { destruct (is_surrogate c) eqn:Hs; [|done].
        apply utf8_None in Hs. congruence. }
      destruct (encode_from (S position) s); simpl; split.
      * intros _. split; [done | by eexists].
      * intros _. by eexists.
      * by intros [? ?].
      * by intros [_ [? ?]].
    + apply utf8_None in Hc. rewrite Hc. split; [by intros [? ?] | by intros [? _]].
Qed.

Lemma str_encode_returns (s : list N) : returns (str_encode s) ↔ encodable s.
Proof. apply encode_from_returns. Qed.

(** The only exception of [encode] is [UnicodeEncodeError]. *)
Lemma encode_from_raises (position : nat) (s : list N) (e : exn) :
  encode_from position s = Raised e → ∃ p, e = UnicodeEncodeError p.
Proof.
  revert position. induction s as [|c s IH]; intros position; simpl; [done|].
  destruct (utf8 c).
  - destruct (encode_from (S position) s) eqn:E; simpl; [done|].
    intros [= <-]. by eapply IH.
  - intros [= <-]. by eexists.
Qed.

(** ** The text of each outgoing stanza *)

Lemma Returned_inj {A} (a b : A) : Returned a = Returned b → a = b.
Proof. congruence. Qed.

Ltac by_format :=
  repeat match goal with
         | |- context [str_int ?n] => generalize (str_int n); intro
         end;
  vm_compute; reflexivity.

Lemma chat_message_data (escape_xml : list N → list N) (self : OutgoingChatMessage.t)
    (message_id : list N) (world : World) :
  OutgoingChatMessage.data escape_xml self message_id world =
  Returned (lit "<message type='" ++
            (if OutgoingChatMessage.is_group self then lit "groupchat" else lit "chat") ++
            lit "' to='" ++ OutgoingChatMessage.peer_jid self ++
            lit "' id='" ++ message_id ++
            lit "' cts='" ++ str_int (clock_ms world) ++
            lit "'><body>" ++ escape_xml (OutgoingChatMessage.body self) ++
            lit "</body>" ++ mention_text (OutgoingChatMessage.bot_mention_jid self) ++
            lit "<preview>" ++ escape_xml (slice_to 20 (OutgoingChatMessage.body self)) ++
            preview_tail (str_int (clock_ms world))).
Proof.
  destruct self as [peer body is_group bot];
    unfold OutgoingChatMessage.data, mention_text;
    cbn [OutgoingChatMessage.peer_jid OutgoingChatMessage.body
         OutgoingChatMessage.is_group OutgoingChatMessage.bot_mention_jid].
  generalize (escape_xml (slice_to 20 body)), (escape_xml body); intros p b.
  destruct is_group, (truthy bot); generalize (str_opt bot); intro; by_format.
Qed.

Lemma format_group_line (jid : list N) :
  format "<g jid='{}' />" [jid] = Returned (g_element jid).
Proof. vm_compute. reflexivity. Qed.

Lemma format_read_receipt (message_id peer_jid timestamp receipt_message_id : list N) :
  format ("<message type='receipt' id='{}' to='{}' cts='{}'>" ++
          "<kik push='false' qos='true' timestamp='{}' />" ++
          "<receipt xmlns='kik:message:receipt' type='read'>" ++
          "<msgid id='{}' />" ++
          "</receipt>")
         [message_id; peer_jid; timestamp; timestamp; receipt_message_id]
  = Returned (receipt_text "read" message_id peer_jid timestamp receipt_message_id).
Proof. vm_compute. reflexivity. Qed.

Lemma read_receipt_data (self : OutgoingReadReceipt.t) (message_id : list N)
    (world : World) :
  OutgoingReadReceipt.data self message_id world =
  Returned (receipt_text "read" message_id (OutgoingReadReceipt.peer_jid self)
              (str_int (clock_ms world)) (OutgoingReadReceipt.receipt_message_id self) ++
            (if contains (lit "groups") (str_opt (OutgoingReadReceipt.group_jid self))
             then g_element (str_opt (OutgoingReadReceipt.group_jid self)) else []) ++
            lit "</message>").
Proof.
  unfold OutgoingReadReceipt.data, OutgoingReadReceipt.group_line.
  rewrite format_group_line. cbn [mbind outcome_bind].
  rewrite format_read_receipt. cbn [mbind outcome_bind].
  unfold g_element at 1. rewrite contains_groups_group_line.
  by destruct (contains _ _).
Qed.

Lemma delivered_receipt_data (self : OutgoingDeliveredReceipt.t)
    (message_id : list N) (world : World) :
  OutgoingDeliveredReceipt.data self message_id world =
  Returned (receipt_text "delivered" message_id (OutgoingDeliveredReceipt.peer_jid self)
              (str_int (clock_ms world))
              (OutgoingDeliveredReceipt.receipt_message_id self) ++
            lit "</message>").
Proof.
  destruct self; unfold OutgoingDeliveredReceipt.data, receipt_text.
  rewrite <- !app_assoc. by_format.
Qed.

Lemma is_typing_data (self : OutgoingIsTypingEvent.t) (message_id : list N)
    (world : World) :
  OutgoingIsTypingEvent.data self message_id world =
  Returned (lit "<message type='chat' to='" ++ OutgoingIsTypingEvent.peer_jid self ++
            lit "' id='" ++ message_id ++
            lit "'><kik push='false' qos='false' timestamp='" ++
            str_int (clock_ms world) ++ lit "' /><is-typing val='" ++
            str_bool_lower (OutgoingIsTypingEvent.is_typing self) ++
            lit "' /></message>").
Proof.
  destruct self as [peer []]; unfold OutgoingIsTypingEvent.data; by_format.
Qed.

Lemma group_is_typing_data (self : OutgoingGroupIsTypingEvent.t)
    (message_id : list N) (world : World) :
  OutgoingGroupIsTypingEvent.data self message_id world =
  Returned (lit "<message type='groupchat' to='" ++
            OutgoingGroupIsTypingEvent.peer_jid self ++
            lit "' id='" ++ message_id ++
            lit "'><pb></pb><kik push='false' qos='false' timestamp='" ++
            str_int (clock_ms world) ++ lit "' /><is-typing val='" ++
            str_bool_lower (OutgoingGroupIsTypingEvent.is_typing self) ++
            lit "' /></message>").
Proof.
  destruct self as [peer []]; unfold OutgoingGroupIsTypingEvent.data; by_format.
Qed.

Lemma link_share_data (self : OutgoingLinkShareEvent.t) (message_id : list N)
    (world : World) :
  OutgoingLinkShareEvent.data self message_id world =
  Returned (link_share_opening (contains (lit "group") (OutgoingLinkShareEvent.peer_jid self)) ++
            OutgoingLinkShareEvent.peer_jid self ++
            lit "' id='" ++ message_id ++
            lit "' cts='" ++ str_int (clock_ms world) ++
            lit "'><pb></pb><kik push='true' qos='true' timestamp='" ++
            str_int (clock_ms world) ++
            lit "' /><request xmlns='kik:message:receipt' r='true' d='true' /><content id='" ++
            message_id ++
            lit "' app-id='com.kik.cards' v='2'><strings><app-name>" ++
            OutgoingLinkShareEvent.app_name self ++
            lit "</app-name><layout>article</layout><title>" ++
            OutgoingLinkShareEvent.title self ++
            lit "</title><text>" ++ OutgoingLinkShareEvent.text self ++
            lit "</text><allow-forward>true</allow-forward></strings><extras /><hashes /><images></images><uris><uri platform='cards'>" ++
            OutgoingLinkShareEvent.link self ++
            lit "</uri><uri></uri><uri>http://cdn.kik.com/cards/unsupported.html</uri></uris></content></message>").
Proof.
  destruct self as [peer link title text app];
    unfold OutgoingLinkShareEvent.data, OutgoingLinkShareEvent.message_type,
      link_share_opening;
    cbn [OutgoingLinkShareEvent.peer_jid OutgoingLinkShareEvent.link
         OutgoingLinkShareEvent.title OutgoingLinkShareEvent.text
         OutgoingLinkShareEvent.app_name].
  destruct (contains (lit "group") peer); by_format.
Qed.

Lemma serialize_stanza (escape_xml : list N → list N) (el : XMPPElement)
    (message_id : list N) (world : World) :
  serialize escape_xml el message_id world =
  stanza escape_xml el message_id world ≫= str_encode.
Proof. by destruct el. Qed.

(** ** Read receipts: the group-identifier element *)

(** A stanza that ends its last child with [</receipt>] has no group element. *)
Lemma not_has_group_element_receipt (before : list N) :
  ¬ has_group_element (before ++ lit "</receipt>" ++ lit "</message>").
Proof.
  intros (pre & jid & H). unfold g_element in H.
  change (lit "</receipt>" ++ lit "</message>")
    with (lit "</receip" ++ lit "t></message>") in H.
  change (lit "' />") with (lit "' " ++ lit "/>") in H.
  rewrite !app_assoc in H. rewrite <- (app_assoc _ (lit "/>")) in H.
  apply app_inj_2 in H as [_ H]; [|done]. discriminate H.
Qed.

Lemma has_group_element_read_receipt (self : OutgoingReadReceipt.t)
    (message_id : list N) (world : World) (text : list N) :
  OutgoingReadReceipt.data self message_id world = Returned text →
  has_group_element text ↔
  contains (lit "groups") (str_opt (OutgoingReadReceipt.group_jid self)) = true.
Proof.
  rewrite read_receipt_data. intros <-%Returned_inj.
  destruct (contains _ _).
  - split; [done|]. intros _. by eexists _, _.
  - split; [|done]. intros H. exfalso. revert H.
    unfold receipt_text. rewrite app_nil_l.
    repeat rewrite <- (app_assoc _ _ (lit "</message>")).
    rewrite !app_assoc. rewrite <- (app_assoc _ (lit "</receipt>")).
    apply not_has_group_element_receipt.
Qed.

(** C1, as amended.  The serialized read receipt holds the group-identifier
    element if and only if a group identifier was supplied and its text
    contains the substring [groups]: the decision is the substring test
    ['groups' in group_line], and the fixed parts of the line never match.
    Without a group identifier the element is never present.  When the
    identifiers of the receipt hold no markup, the stanza has a [g] tag
    nowhere else. *)
Theorem read_receipt_group_element (self : OutgoingReadReceipt.t)
    (message_id : list N) (world : World) :
  ∃ text,
    OutgoingReadReceipt.data self message_id world = Returned text ∧
    OutgoingReadReceipt.serialize self message_id world = str_encode text ∧
    (has_group_element text ↔
     ∃ jid, OutgoingReadReceipt.group_jid self = Some jid ∧
            contains (lit "groups") jid = true) ∧
    (OutgoingReadReceipt.group_jid self = None → ¬ has_group_element text) ∧
    (no_markup message_id → no_markup (OutgoingReadReceipt.peer_jid self) →
     no_markup (OutgoingReadReceipt.receipt_message_id self) →
     contains (lit "<g ") text = true ↔ has_group_element text).
Proof.
  destruct (OutgoingReadReceipt.data self message_id world) as [text|e] eqn:Hdata;
    [|by rewrite read_receipt_data in Hdata].
  exists text. split; [done|]. split.
  { unfold OutgoingReadReceipt.serialize. by rewrite Hdata. }
  rewrite (has_group_element_read_receipt _ _ _ _ Hdata).
  split; [|split].
  - destruct (OutgoingReadReceipt.group_jid self) as [jid|]; cbn [str_opt].
    + split; [intros H; by exists jid | by intros (? & [= <-] & ?)].
    + split; [by intros [=] | by intros (? & [=] & _)].
  - by intros -> [=].
  - intros Hid Hpeer Hreceipt.
    rewrite read_receipt_data in Hdata. apply Returned_inj in Hdata as <-.
    destruct (contains (lit "groups") _).
    + split; [done|]. intros _. apply contains_app_r. vm_compute. reflexivity.
    + split; [|done]. intros H. rewrite <- H. symmetry.
      unfold receipt_text. rewrite <- !app_assoc.
      change (lit "<g ") with (60 :: lit "g ").
      skip_markup. vm_compute. reflexivity.
Qed.

(** C1 as stated fails: a receipt built with the group identifier
    [1100221067977_g], which has no [groups] in it, is serialized without
    the group element. *)
Lemma read_receipt_bare_group_id_has_no_group_element :
  OutgoingReadReceipt.group_jid receipt_bare_group_id = Some (lit "1100221067977_g") ∧
  OutgoingReadReceipt.data receipt_bare_group_id (lit "id-1")
    a_moment
  = Returned (lit ("<message type='receipt' id='id-1' to='alice_k3x@talk.kik.com' cts='1500000000000'>" ++
                   "<kik push='false' qos='true' timestamp='1500000000000' />" ++
                   "<receipt xmlns='kik:message:receipt' type='read'>" ++
                   "<msgid id='m-1' />" ++
                   "</receipt>" ++
                   "</message>")) ∧
  ¬ has_group_element
      (lit ("<message type='receipt' id='id-1' to='alice_k3x@talk.kik.com' cts='1500000000000'>" ++
            "<kik push='false' qos='true' timestamp='1500000000000' />" ++
            "<receipt xmlns='kik:message:receipt' type='read'>" ++
            "<msgid id='m-1' />" ++
            "</receipt>" ++
            "</message>")).
Proof.
  split; [done|].
  assert (OutgoingReadReceipt.data receipt_bare_group_id (lit "id-1")
            a_moment
          = Returned (lit ("<message type='receipt' id='id-1' to='alice_k3x@talk.kik.com' cts='1500000000000'>" ++
                   "<kik push='false' qos='true' timestamp='1500000000000' />" ++
                   "<receipt xmlns='kik:message:receipt' type='read'>" ++
                   "<msgid id='m-1' />" ++
                   "</receipt>" ++
                   "</message>"))) as Hdata by (vm_compute; reflexivity).
  split; [done|].
  rewrite (has_group_element_read_receipt _ _ _ _ Hdata).
  vm_compute. discriminate.
Qed.

(** The same receipt addressed with the full group JID carries the element. *)
Example read_receipt_group_jid :
  OutgoingReadReceipt.serialize receipt_group (lit "id-1") a_moment
  = Returned (blit ("<message type='receipt' id='id-1' to='alice_k3x@talk.kik.com' cts='1500000000000'>" ++
                    "<kik push='false' qos='true' timestamp='1500000000000' />" ++
                    "<receipt xmlns='kik:message:receipt' type='read'>" ++
                    "<msgid id='m-1' />" ++
                    "</receipt>" ++
                    "<g jid='1100221067977_g@groups.kik.com' />" ++
                    "</message>")).
Proof. vm_compute. reflexivity. Qed.

(** ** Empty message identifiers *)

(** C2, as amended.  No serializer inspects [message_id]: with an empty one
    every outbound variant still builds its whole stanza, now with an empty
    [id] attribute, and encodes it.  The only exception a serializer can
    raise is the [UnicodeEncodeError] of the final [encode]. *)
Theorem serialize_empty_message_id (escape_xml : list N → list N)
    (el : XMPPElement) (world : World) :
  ∃ text,
    stanza escape_xml el [] world = Returned text ∧
    contains (lit " id=''") text = true ∧
    serialize escape_xml el [] world = str_encode text ∧
    ∀ e, serialize escape_xml el [] world = Raised e → ∃ p, e = UnicodeEncodeError p.
Proof.
  assert (∃ text, stanza escape_xml el [] world = Returned text ∧
                  contains (lit " id=''") text = true) as (text & H & Hid).
  { destruct el as [e|e|e|e|e|e]; cbn [stanza]; eexists.
    - split; [apply chat_message_data|].
      do 4 apply contains_app_r. vm_compute. reflexivity.
    - split; [apply read_receipt_data|].
      apply contains_app_l. vm_compute. reflexivity.
    - split; [apply delivered_receipt_data|].
      apply contains_app_l. vm_compute. reflexivity.
    - split; [apply is_typing_data|].
      do 2 apply contains_app_r. vm_compute. reflexivity.
    - split; [apply group_is_typing_data|].
      do 2 apply contains_app_r. vm_compute. reflexivity.
    - split; [apply link_share_data|].
      do 2 apply contains_app_r. vm_compute. reflexivity. }
  exists text. rewrite serialize_stanza, H. cbn [mbind outcome_bind].
  split; [done|]. split; [done|]. split; [done|].
  intros e. apply encode_from_raises.
Qed.

(** C2 as stated fails: a delivered receipt with an empty [message_id] is
    serialized in full. *)
Lemma serialize_empty_message_id_returns :
  serialize escape_xml (DeliveredReceipt delivered_receipt) (lit "")
    a_moment
  = Returned (blit ("<message type='receipt' id='' to='bob@talk.kik.com' cts='1500000000000'>" ++
                    "<kik push='false' qos='true' timestamp='1500000000000' />" ++
                    "<receipt xmlns='kik:message:receipt' type='delivered'>" ++
                    "<msgid id='m-1' />" ++
                    "</receipt>" ++
                    "</message>")).
Proof. vm_compute. reflexivity. Qed.

(** ** Chat messages: the preview *)

Lemma encodable_app (a b : list N) : encodable (a ++ b) ↔ encodable a ∧ encodable b.
Proof. apply Forall_app. Qed.

(** A literal, and so a printed integer, holds no surrogate. *)
Lemma encodable_lit (s : string) : encodable (lit s).
Proof.
  unfold encodable, lit. rewrite Forall_fmap. apply Forall_forall.
  intros a _. simpl. unfold is_surrogate, code_point.
  pose proof (N_ascii_bounded a).
  destruct (N.eqb_spec (N_of_ascii a) 39), (N.leb_spec 55296 34),
    (N.leb_spec 55296 (N_of_ascii a)); simpl; try done; lia.
Qed.

Lemma encodable_str_int (n : Z) : encodable (str_int n).
Proof. apply encodable_lit. Qed.

Lemma encodable_escape_xml (s : list N) : encodable s → encodable (escape_xml s).
Proof.
  induction 1 as [|c s Hc Hs IH]; [constructor|].
  change (escape_xml (c :: s)) with
    ((if c =? 38 then lit "&amp;"
      else if c =? 60 then lit "&lt;"
      else if c =? 62 then lit "&gt;"
      else if c =? 34 then lit "&quot;"
      else if c =? 39 then lit "&apos;"
      else [c]) ++ escape_xml s).
  apply encodable_app. split; [|done].
  repeat case_match; try apply encodable_lit. by constructor.
Qed.

(** C3, as amended.  The preview of a chat message is [escape_xml] applied
    to [body[0:20]]: the first [min 20 (len body)] code points of the raw
    body, cut before escaping.  The text of the stanza is always built;
    [serialize] returns its UTF-8 encoding exactly when no string put into
    the stanza holds a lone surrogate, and raises [UnicodeEncodeError]
    otherwise. *)
Theorem chat_message_preview (escape_xml : list N → list N)
    (self : OutgoingChatMessage.t) (message_id : list N) (world : World) :
  ∃ before,
    let preview := slice_to 20 (OutgoingChatMessage.body self) in
    let text := before ++ lit "<preview>" ++ escape_xml preview ++
                preview_tail (str_int (clock_ms world)) in
    OutgoingChatMessage.data escape_xml self message_id world = Returned text ∧
    preview `prefix_of` OutgoingChatMessage.body self ∧
    length preview = Nat.min 20 (length (OutgoingChatMessage.body self)) ∧
    OutgoingChatMessage.serialize escape_xml self message_id world = str_encode text ∧
    (returns (OutgoingChatMessage.serialize escape_xml self message_id world) ↔
     encodable (OutgoingChatMessage.peer_jid self) ∧ encodable message_id ∧
     encodable (mention_text (OutgoingChatMessage.bot_mention_jid self)) ∧
     encodable (escape_xml (OutgoingChatMessage.body self)) ∧
     encodable (escape_xml preview)).
Proof.
  exists (lit "<message type='" ++
          (if OutgoingChatMessage.is_group self then lit "groupchat" else lit "chat") ++
          lit "' to='" ++ OutgoingChatMessage.peer_jid self ++
          lit "' id='" ++ message_id ++
          lit "' cts='" ++ str_int (clock_ms world) ++
          lit "'><body>" ++ escape_xml (OutgoingChatMessage.body self) ++
          lit "</body>" ++ mention_text (OutgoingChatMessage.bot_mention_jid self)).
  cbv zeta. split; [rewrite chat_message_data; by rewrite <- !app_assoc|].
  split; [apply prefix_take|].
  split; [unfold slice_to; rewrite length_take; lia|].
  unfold OutgoingChatMessage.serialize.
  rewrite chat_message_data. cbn [mbind outcome_bind].
  split; [by rewrite <- !app_assoc|].
  rewrite str_encode_returns. unfold preview_tail.
  rewrite !encodable_app.
  assert (encodable (if OutgoingChatMessage.is_group self
                     then lit "groupchat" else lit "chat"))
    by (destruct (OutgoingChatMessage.is_group self); apply encodable_lit).
  split; intros ?; destruct_and?; repeat split;
    auto using encodable_lit, encodable_str_int.
Qed.

(** C3 as stated fails where it says that no body makes serialization
    throw: a body that holds the lone surrogate U+D800 is sliced, escaped
    and formatted, and then [data.encode()] raises at the position of that
    code point in the text. *)
Lemma chat_message_surrogate_body_raises :
  OutgoingChatMessage.serialize escape_xml (chat_message [55296]) (lit "id-1")
    a_moment
  = Raised (UnicodeEncodeError 79).
Proof. vm_compute. reflexivity. Qed.

(** The cut comes before the escaping: of a 30-character body the preview
    keeps the first 20 characters, which escape to 27. *)
Example chat_message_preview_escaped :
  OutgoingChatMessage.data escape_xml (chat_message (lit "Tom & Jerry say <hello> to you"))
    (lit "id-1") a_moment
  = Returned (lit ("<message type='chat' to='bob@talk.kik.com' id='id-1' cts='1500000000000'>" ++
                   "<body>Tom &amp; Jerry say &lt;hello&gt; to you</body>" ++
                   "<preview>Tom &amp; Jerry say &lt;hel</preview>" ++
                   "<kik push='true' qos='true' timestamp='1500000000000' />" ++
                   "<request xmlns='kik:message:receipt' r='true' d='true' />" ++
                   "<ri></ri>" ++
                   "</message>")).
Proof. vm_compute. reflexivity. Qed.

(** The cut counts code points, not bytes: 25 times U+1F600 (four bytes
    each) leaves a preview of 20 of them, and the stanza is encoded. *)
Example chat_message_preview_multi_byte :
  OutgoingChatMessage.data escape_xml (chat_message (replicate 25 128512))
    (lit "id-1") a_moment
  = Returned (lit "<message type='chat' to='bob@talk.kik.com' id='id-1' cts='1500000000000'><body>" ++
              replicate 25 128512 ++ lit "</body><preview>" ++
              replicate 20 128512 ++ preview_tail (lit "1500000000000")) ∧
  returns (OutgoingChatMessage.serialize escape_xml (chat_message (replicate 25 128512))
             (lit "id-1") a_moment).
Proof. split; [vm_compute; reflexivity|]. vm_compute. by eexists. Qed.

Example chat_message_empty_body :
  OutgoingChatMessage.serialize escape_xml (chat_message (lit "")) (lit "id-1")
    a_moment
  = Returned (blit ("<message type='chat' to='bob@talk.kik.com' id='id-1' cts='1500000000000'>" ++
                    "<body></body>" ++
                    "<preview></preview>" ++
                    "<kik push='true' qos='true' timestamp='1500000000000' />" ++
                    "<request xmlns='kik:message:receipt' r='true' d='true' />" ++
                    "<ri></ri>" ++
                    "</message>")).
Proof. vm_compute. reflexivity. Qed.

(** ** The clock *)

(** [round] takes a tie to the even integer, and has no value for an
    infinity or a NaN. *)
Example round_ties_to_even :
  round (0.0625 * 1000) = Returned 62%Z ∧
  round (0.1875 * 1000) = Returned 188%Z ∧
  round (-2.5) = Returned (-2)%Z ∧
  round infinity = Raised (OverflowError "cannot convert float infinity to integer") ∧
  round nan = Raised (ValueError "cannot convert float NaN to integer").
Proof. repeat split; vm_compute; reflexivity. Qed.




(** ** Link shares *)

(** C8, as amended.  A link share whose destination identifier has the text
    [group] in it, which is all that [serialize] tests, opens with the type
    [groupchat] and the namespace [kik:groups], and with the type [chat] and
    no namespace otherwise; its [uris] element holds the three [uri]
    elements of [uri_elements] in order (the link for the platform [cards],
    an empty one, and the fixed unsupported-content address) and closes the
    stanza.  No field is escaped: the stanza has exactly these three [uri]
    elements when the fields hold no markup. *)
Theorem link_share_type_and_uris (self : OutgoingLinkShareEvent.t)
    (message_id : list N) (world : World) :
  ∃ text middle,
    OutgoingLinkShareEvent.data self message_id world = Returned text ∧
    OutgoingLinkShareEvent.serialize self message_id world = str_encode text ∧
    text = link_share_opening (contains (lit "group") (OutgoingLinkShareEvent.peer_jid self)) ++
           OutgoingLinkShareEvent.peer_jid self ++ lit "' id='" ++ message_id ++
           middle ++
           lit "<uris>" ++ concat (uri_elements (OutgoingLinkShareEvent.link self)) ++
           lit "</uris></content></message>" ∧
    uri_elements (OutgoingLinkShareEvent.link self) =
      [ lit "<uri platform='cards'>" ++ OutgoingLinkShareEvent.link self ++ lit "</uri>";
        lit "<uri></uri>";
        lit "<uri>http://cdn.kik.com/cards/unsupported.html</uri>" ] ∧
    (no_markup message_id → no_markup (OutgoingLinkShareEvent.peer_jid self) →
     no_markup (OutgoingLinkShareEvent.link self) →
     no_markup (OutgoingLinkShareEvent.title self) →
     no_markup (OutgoingLinkShareEvent.text self) →
     no_markup (OutgoingLinkShareEvent.app_name self) →
     occurrences (lit "</uri>") text = 3%nat).
Proof.
  eexists _, (lit "' cts='" ++ str_int (clock_ms world) ++
            lit "'><pb></pb><kik push='true' qos='true' timestamp='" ++
            str_int (clock_ms world) ++
            lit "' /><request xmlns='kik:message:receipt' r='true' d='true' /><content id='" ++
            message_id ++
            lit "' app-id='com.kik.cards' v='2'><strings><app-name>" ++
            OutgoingLinkShareEvent.app_name self ++
            lit "</app-name><layout>article</layout><title>" ++
            OutgoingLinkShareEvent.title self ++
            lit "</title><text>" ++ OutgoingLinkShareEvent.text self ++
            lit "</text><allow-forward>true</allow-forward></strings><extras /><hashes /><images></images>").
  split; [apply link_share_data|]. split.
  { unfold OutgoingLinkShareEvent.serialize. by rewrite link_share_data. }
  split; [|split; [done|]].
  - unfold uri_elements. cbn [concat]. rewrite app_nil_r.
    rewrite <- !app_assoc. do 16 f_equal.
  - intros Hid Hpeer Hlink Htitle Htext Happ.
    change (lit "</uri>") with (60 :: lit "/uri>").
    unfold link_share_opening.
    destruct (contains (lit "group") _); skip_markup; vm_compute; reflexivity.
Qed.

(** A link share whose fields hold no markup has three [uri] elements. *)
Lemma link_share_type_and_uris_witness :
  ∃ text,
    OutgoingLinkShareEvent.data link_share_to_groupie (lit "id-1") a_moment
    = Returned text ∧
    occurrences (lit "</uri>") text = 3%nat.
Proof.
  destruct (link_share_type_and_uris link_share_to_groupie (lit "id-1") a_moment)
    as (text & middle & Hdata & _ & _ & _ & Huris).
  exists text. split; [exact Hdata|].
  apply Huris; vm_compute; repeat constructor; discriminate.
Defined.

(** C8 as stated fails in both halves.  The identifier of a user whose name
    begins with [group] is sent with the type [groupchat] and the namespace
    [kik:groups], while a read receipt for the same identifier as its group
    has no group element: the test is for a piece of text, not for a group.
    And a link that holds markup gives a stanza with four [uri] elements. *)
Lemma link_share_group_text_and_markup :
  OutgoingLinkShareEvent.data link_share_to_groupie (lit "id-1") a_moment
  = Returned (lit ("<message type='groupchat' xmlns='kik:groups' to='groupie_x1@talk.kik.com' id='id-1' cts='1500000000000'>" ++
                   "<pb></pb>" ++
                   "<kik push='true' qos='true' timestamp='1500000000000' />" ++
                   "<request xmlns='kik:message:receipt' r='true' d='true' />" ++
                   "<content id='id-1' app-id='com.kik.cards' v='2'>" ++
                   "<strings>" ++
                   "<app-name>App</app-name>" ++
                   "<layout>article</layout>" ++
                   "<title>Title</title>" ++
                   "<text>Text</text>" ++
                   "<allow-forward>true</allow-forward>" ++
                   "</strings>" ++
                   "<extras />" ++
                   "<hashes />" ++
                   "<images>" ++
                   "</images>" ++
                   "<uris>" ++
                   "<uri platform='cards'>https://example.org/a</uri>" ++
                   "<uri></uri>" ++
                   "<uri>http://cdn.kik.com/cards/unsupported.html</uri>" ++
                   "</uris>" ++
                   "</content>" ++
                   "</message>")) ∧
  OutgoingReadReceipt.data
    {| OutgoingReadReceipt.peer_jid := lit "alice_k3x@talk.kik.com";
       OutgoingReadReceipt.receipt_message_id := lit "m-1";
       OutgoingReadReceipt.group_jid := Some (lit "groupie_x1@talk.kik.com") |}
    (lit "id-1") a_moment
  = Returned (lit ("<message type='receipt' id='id-1' to='alice_k3x@talk.kik.com' cts='1500000000000'>" ++
                   "<kik push='false' qos='true' timestamp='1500000000000' />" ++
                   "<receipt xmlns='kik:message:receipt' type='read'>" ++
                   "<msgid id='m-1' />" ++
                   "</receipt>" ++
                   "</message>")) ∧
  OutgoingLinkShareEvent.data link_share_with_markup (lit "id-1") a_moment
  = Returned (lit ("<message type='chat' to='bob@talk.kik.com' id='id-1' cts='1500000000000'>" ++
                   "<pb></pb>" ++
                   "<kik push='true' qos='true' timestamp='1500000000000' />" ++
                   "<request xmlns='kik:message:receipt' r='true' d='true' />" ++
                   "<content id='id-1' app-id='com.kik.cards' v='2'>" ++
                   "<strings>" ++
                   "<app-name>App</app-name>" ++
                   "<layout>article</layout>" ++
                   "<title>Title</title>" ++
                   "<text>Text</text>" ++
                   "<allow-forward>true</allow-forward>" ++
                   "</strings>" ++
                   "<extras />" ++
                   "<hashes />" ++
                   "<images>" ++
                   "</images>" ++
                   "<uris>" ++
                   "<uri platform='cards'>a</uri><uri>b</uri>" ++
                   "<uri></uri>" ++
                   "<uri>http://cdn.kik.com/cards/unsupported.html</uri>" ++
                   "</uris>" ++
                   "</content>" ++
                   "</message>")) ∧
  occurrences (lit "</uri>")
    <$> OutgoingLinkShareEvent.data link_share_with_markup (lit "id-1") a_moment
  = Returned 4%nat.
Proof.
  split; [vm_compute; reflexivity|]. split; [vm_compute; reflexivity|].
  split; vm_compute; reflexivity.
Qed.

Example link_share_to_group :
  OutgoingLinkShareEvent.serialize
    {| OutgoingLinkShareEvent.peer_jid := lit "1100221067977_g@groups.kik.com";
       OutgoingLinkShareEvent.link := lit "https://example.org/a";
       OutgoingLinkShareEvent.title := lit "Title";
       OutgoingLinkShareEvent.text := lit "Text";
       OutgoingLinkShareEvent.app_name := lit "App" |}
    (lit "id-1") a_moment
  = Returned (blit ("<message type='groupchat' xmlns='kik:groups' to='1100221067977_g@groups.kik.com' id='id-1' cts='1500000000000'>" ++
                    "<pb></pb>" ++
                    "<kik push='true' qos='true' timestamp='1500000000000' />" ++
                    "<request xmlns='kik:message:receipt' r='true' d='true' />" ++
                    "<content id='id-1' app-id='com.kik.cards' v='2'>" ++
                    "<strings>" ++
                    "<app-name>App</app-name>" ++
                    "<layout>article</layout>" ++
                    "<title>Title</title>" ++
                    "<text>Text</text>" ++
                    "<allow-forward>true</allow-forward>" ++
                    "</strings>" ++
                    "<extras />" ++
                    "<hashes />" ++
                    "<images>" ++
                    "</images>" ++
                    "<uris>" ++
                    "<uri platform='cards'>https://example.org/a</uri>" ++
                    "<uri></uri>" ++
                    "<uri>http://cdn.kik.com/cards/unsupported.html</uri>" ++
                    "</uris>" ++
                    "</content>" ++
                    "</message>")).
Proof. vm_compute. reflexivity. Qed.

Example link_share_to_peer :
  ∃ rest,
    OutgoingLinkShareEvent.data
      {| OutgoingLinkShareEvent.peer_jid := lit "bob@talk.kik.com";
         OutgoingLinkShareEvent.link := lit "https://example.org/a";
         OutgoingLinkShareEvent.title := lit "Title";
         OutgoingLinkShareEvent.text := lit "Text";
         OutgoingLinkShareEvent.app_name := lit "App" |}
      (lit "id-1") a_moment
    = Returned (lit "<message type='chat' to='bob@talk.kik.com' id='id-1' " ++ rest).
Proof. eexists. vm_compute. reflexivity. Qed.

(** ** Results of binds *)

Lemma bind_Returned {A B} (m : outcome A) (f : A → outcome B) (b : B) :
  m ≫= f = Returned b ↔ ∃ a, m = Returned a ∧ f a = Returned b.
Proof.
  destruct m as [a|e]; simpl.
  - split; [by exists a | by intros (? & [= <-] & ?)].
  - split; [done | by intros (? & [=] & _)].
Qed.

Lemma returns_or_raises {A} (m : outcome A) : returns m ∨ raises m.
Proof. destruct m; [left | right]; by eexists. Qed.

Ltac bind_inv H :=
  let a := fresh "a" in
  let Ha := fresh "H" a in
  apply bind_Returned in H as (a & Ha & H).

(** ** Incoming chat messages: the receipt requests *)

Lemma request_flag_absent (a : string) (data : Tag) :
  find "request" data = None →
  IncomingChatMessage.request_flag a data = Returned false.
Proof. unfold IncomingChatMessage.request_flag. by intros ->. Qed.

Lemma request_flag_value (a : string) (data request : Tag) (value : list N) :
  find "request" data = Some request → attrs request !! lit a = Some value →
  IncomingChatMessage.request_flag a data = Returned (bool_decide (value = lit "true")).
Proof.
  unfold IncomingChatMessage.request_flag, is_true, subscript, getitem.
  by intros -> ->.
Qed.

Lemma request_flag_no_attribute (a : string) (data request : Tag) :
  find "request" data = Some request → attrs request !! lit a = None →
  IncomingChatMessage.request_flag a data = Raised (KeyError (lit a)).
Proof.
  unfold IncomingChatMessage.request_flag, is_true, subscript, getitem.
  by intros -> ->.
Qed.

Lemma chat_message_init_flags {Base} (XMPPResponse_init : Tag → outcome Base)
    (data : Tag) (m : IncomingChatMessage.t Base) :
  IncomingChatMessage.init XMPPResponse_init data = Returned m →
  IncomingChatMessage.request_flag "d" data
    = Returned (IncomingChatMessage.request_delivered_receipt m) ∧
  IncomingChatMessage.request_flag "r" data
    = Returned (IncomingChatMessage.request_read_receipt m).
Proof.
  unfold IncomingChatMessage.init. intros H.
  bind_inv H. bind_inv H. bind_inv H. bind_inv H. bind_inv H. bind_inv H.
  apply Returned_inj in H as <-. done.
Qed.

(** C5, as amended.  The flag for attribute [a] ([d]: delivered, [r]: read)
    is taken from the first [request] element below the stanza, at any
    depth.  It is [True] exactly when that element has the attribute with
    the value [true], [False] for any other value and when the stanza has no
    [request] element; a [request] element without the attribute makes the
    lookup, and so the constructor, raise [KeyError]. *)
Theorem chat_message_request_flags {Base} (XMPPResponse_init : Tag → outcome Base)
    (data : Tag) :
  (∀ a, find "request" data = None →
        IncomingChatMessage.request_flag a data = Returned false) ∧
  (∀ a request value,
     find "request" data = Some request → attrs request !! lit a = Some value →
     IncomingChatMessage.request_flag a data = Returned (bool_decide (value = lit "true"))) ∧
  (∀ a request,
     find "request" data = Some request → attrs request !! lit a = None →
     IncomingChatMessage.request_flag a data = Raised (KeyError (lit a))) ∧
  (∀ m, IncomingChatMessage.init XMPPResponse_init data = Returned m →
     IncomingChatMessage.request_flag "d" data
       = Returned (IncomingChatMessage.request_delivered_receipt m) ∧
     IncomingChatMessage.request_flag "r" data
       = Returned (IncomingChatMessage.request_read_receipt m)) ∧
  (∀ request,
     find "request" data = Some request →
     attrs request !! lit "d" = None ∨ attrs request !! lit "r" = None →
     raises (IncomingChatMessage.init XMPPResponse_init data)).
Proof.
  split; [intros a; apply request_flag_absent|].
  split; [intros a; apply request_flag_value|].
  split; [intros a; apply request_flag_no_attribute|].
  split; [intros m; apply chat_message_init_flags|].
  intros request Hreq Hattr.
  destruct (returns_or_raises (IncomingChatMessage.init XMPPResponse_init data))
    as [[m Hm]|]; [|done].
  apply chat_message_init_flags in Hm as [Hd Hr].
  destruct Hattr as [Hattr|Hattr].
  - by rewrite (request_flag_no_attribute _ _ _ Hreq Hattr) in Hd.
  - by rewrite (request_flag_no_attribute _ _ _ Hreq Hattr) in Hr.
Qed.

(** A chat message that asks for a delivered receipt and declines a read
    receipt: the decoded flags are what [request_flag] returns. *)
Lemma chat_message_request_flags_witness :
  IncomingChatMessage.init base_returns chat_request_d_only
  = Returned {| IncomingChatMessage.base := ();
                IncomingChatMessage.request_delivered_receipt := true;
                IncomingChatMessage.request_read_receipt := false;
                IncomingChatMessage.status := None;
                IncomingChatMessage.preview := None;
                IncomingChatMessage.from_jid := lit "alice_k3x@talk.kik.com";
                IncomingChatMessage.to_jid := lit "bob@talk.kik.com";
                IncomingChatMessage.body := Some (lit "hi");
                IncomingChatMessage.is_typing := None |} ∧
  IncomingChatMessage.request_flag "d" chat_request_d_only = Returned true ∧
  IncomingChatMessage.request_flag "r" chat_request_d_only = Returned false.
Proof.
  split; [vm_compute; reflexivity|].
  apply (proj1 (proj2 (proj2 (proj2
           (chat_message_request_flags base_returns chat_request_d_only))))
           {| IncomingChatMessage.base := ();
                IncomingChatMessage.request_delivered_receipt := true;
                IncomingChatMessage.request_read_receipt := false;
                IncomingChatMessage.status := None;
                IncomingChatMessage.preview := None;
                IncomingChatMessage.from_jid := lit "alice_k3x@talk.kik.com";
                IncomingChatMessage.to_jid := lit "bob@talk.kik.com";
                IncomingChatMessage.body := Some (lit "hi");
                IncomingChatMessage.is_typing := None |}).
  vm_compute. reflexivity.
Defined.

(** C5 as stated fails on the absent attribute: a [request] element that
    has [r] and no [d] does not decode to [False], the lookup of [d] raises
    [KeyError] and the constructor with it. *)
Lemma chat_message_request_without_d_raises :
  IncomingChatMessage.request_flag "d" chat_request_without_d = Raised (KeyError (lit "d")) ∧
  IncomingChatMessage.init base_returns chat_request_without_d = Raised (KeyError (lit "d")).
Proof. split; vm_compute; reflexivity. Qed.

(** The [request] element is looked up at any depth: one inside [content]
    sets the flag of a stanza that has no [request] child. *)
Example request_flag_nested :
  find_child "request"
    (tag "message" [] [element "content" [] [element "request" [("d", "true")] []]]) = None ∧
  IncomingChatMessage.request_flag "d"
    (tag "message" [] [element "content" [] [element "request" [("d", "true")] []]])
  = Returned true.
Proof. split; vm_compute; reflexivity. Qed.

(** ** Incoming group chat messages: the group element *)

(** C6, as amended.  A group chat message without a direct [g] child is
    never decoded: the constructor raises, and no group identifier is made
    up.  The exception does not name the missing element: when the
    chat-message part succeeds it is the [TypeError] of [g['jid']] with
    [g = None], and when the chat-message part raises it is the exception
    of that part. *)
Theorem group_chat_message_without_g {Base} (XMPPResponse_init : Tag → outcome Base)
    (data : Tag) :
  find_child "g" data = None →
  raises (IncomingGroupChatMessage.init XMPPResponse_init data) ∧
  ¬ returns (IncomingGroupChatMessage.init XMPPResponse_init data) ∧
  (returns (IncomingChatMessage.init XMPPResponse_init data) →
   IncomingGroupChatMessage.init XMPPResponse_init data
   = Raised (TypeError "'NoneType' object is not subscriptable")) ∧
  (∀ e, IncomingChatMessage.init XMPPResponse_init data = Raised e →
        IncomingGroupChatMessage.init XMPPResponse_init data = Raised e).
Proof.
  intros Hg. unfold IncomingGroupChatMessage.init. rewrite Hg.
  destruct (IncomingChatMessage.init XMPPResponse_init data) as [chat|e]; simpl.
  - split; [by eexists|]. split; [by intros [? ?]|]. split; [done|]. by intros e.
  - split; [by eexists|]. split; [by intros [? ?]|]. split; [by intros [? ?]|].
    by intros e' [= <-].
Qed.

(** A chat message without a [g] child, decoded as a group chat message. *)
Lemma group_chat_message_without_g_witness :
  find_child "g" chat_request_d_only = None ∧
  returns (IncomingChatMessage.init base_returns chat_request_d_only) ∧
  IncomingGroupChatMessage.init base_returns chat_request_d_only
  = Raised (TypeError "'NoneType' object is not subscriptable").
Proof.
  split; [vm_compute; reflexivity|].
  assert (returns (IncomingChatMessage.init base_returns chat_request_d_only)) as Hchat
    by (eexists; vm_compute; reflexivity).
  split; [exact Hchat|].
  destruct (group_chat_message_without_g base_returns chat_request_d_only)
    as (_ & _ & H & _); [vm_compute; reflexivity|].
  exact (H Hchat).
Defined.

(** C6 as stated fails where it says that the error identifies the missing
    element.  The exception for the missing [g] is the one that the typing
    decoder raises for a missing [is-typing] when [g] is there, so its value
    tells neither apart; and a stanza that lacks [from] as well as [g] fails
    with the [KeyError] of [from], which says nothing of [g]. *)
Lemma group_chat_message_error_names_no_element :
  find_child "g" chat_request_d_only = None ∧
  IncomingGroupChatMessage.init base_returns chat_request_d_only
  = Raised (TypeError "'NoneType' object is not subscriptable") ∧
  is_Some (find_child "g" group_typing_without_is_typing) ∧
  IncomingGroupIsTypingEvent.init base_returns group_typing_without_is_typing
  = Raised (TypeError "'NoneType' object is not subscriptable") ∧
  find_child "g" chat_without_g_and_from = None ∧
  IncomingGroupChatMessage.init base_returns chat_without_g_and_from
  = Raised (KeyError (lit "from")).
Proof.
  split; [vm_compute; reflexivity|]. split; [vm_compute; reflexivity|].
  split; [vm_compute; by eexists|]. split; [vm_compute; reflexivity|].
  split; vm_compute; reflexivity.
Qed.

(** A [g] element deeper in the stanza does not count. *)
Example group_chat_message_nested_g :
  IncomingGroupChatMessage.init base_returns
    (tag "message" [("from", "a"); ("to", "b")]
       [element "content" [] [element "g" [("jid", "1100221067977_g@groups.kik.com")] []]])
  = Raised (TypeError "'NoneType' object is not subscriptable").
Proof. vm_compute. reflexivity. Qed.

Example group_chat_message_with_g :
  IncomingGroupChatMessage.group_jid <$>
    IncomingGroupChatMessage.init base_returns
      (tag "message" [("from", "a"); ("to", "b")]
         [element "g" [("jid", "1100221067977_g@groups.kik.com")] []])
  = Returned (lit "1100221067977_g@groups.kik.com").
Proof. vm_compute. reflexivity. Qed.

(** ** Comprehensions *)

Lemma comprehension_Returned {A B} (f : A → outcome B) (l : list A) (ys : list B) :
  comprehension f l = Returned ys ↔ Forall2 (λ x y, f x = Returned y) l ys.
Proof.
  revert ys. induction l as [|x l IH]; intros ys; simpl.
  - split; [by intros <-%Returned_inj | by intros ->%Forall2_nil_inv_l].
  - split.
    + intros H. bind_inv H. bind_inv H. apply Returned_inj in H as <-.
      constructor; [done|]. by apply IH.
    + intros (y & ys' & Hy & Hys & ->)%Forall2_cons_inv_l.
      rewrite Hy. simpl. apply IH in Hys as ->. done.
Qed.

Lemma comprehension_returns {A B} (f : A → outcome B) (l : list A) :
  Forall (λ x, returns (f x)) l → returns (comprehension f l).
Proof.
  induction 1 as [|x l [y Hy] _ [ys Hys]]; [by eexists|].
  exists (y :: ys). simpl. by rewrite Hy, Hys.
Qed.

(** ** Group receipts: the message identifiers *)

(** Below a tag whose children are leaves, the descendants are the children. *)
Lemma descendants_leaves (n : list N) (a : gmap (list N) (list N)) (ts : list Tag) :
  Forall (λ t, contents t = []) ts →
  descendants (mkTag n a (inr <$> ts)) = ts.
Proof.
  change (descendants (mkTag n a (inr <$> ts)))
    with (flat_map (λ n : list N + Tag,
                      match n with
                      | inl _ => []
                      | inr c => c :: descendants c
                      end) (inr <$> ts)).
  induction 1 as [|t ts Ht _ IH]; [done|].
  rewrite fmap_cons. cbn [flat_map]. rewrite IH.
  destruct t as [? ? cs]; cbn [contents] in Ht. by subst cs.
Qed.

Lemma getitem_Returned (t : Tag) (key : string) (v : list N) :
  getitem t key = Returned v ↔ attrs t !! lit key = Some v.
Proof.
  unfold getitem. destruct (attrs t !! lit key); [|done].
  split; [by intros ->%Returned_inj | by intros [= ->]].
Qed.

Lemma getitem_returns (t : Tag) (key : string) :
  is_Some (attrs t !! lit key) → returns (getitem t key).
Proof. intros [v Hv]. exists v. by apply getitem_Returned. Qed.

(** C9.  The decoded [receipt_ids] are the [id] attributes of the [msgid]
    tags below the first [receipt] element, one entry per tag and in the
    order of [findAll], which is document order; equal identifiers are all
    kept.  The constructor returns whenever the attributes and elements it
    subscripts are there. *)
Theorem group_receipts_ids {Base} (XMPPResponse_init : Tag → outcome Base)
    (data : Tag) :
  (∀ ev, IncomingGroupReceiptsEvent.init XMPPResponse_init data = Returned ev →
     ∃ receipt,
       find "receipt" data = Some receipt ∧
       Some <$> IncomingGroupReceiptsEvent.receipt_ids ev
         = (λ msgid, attrs msgid !! lit "id") <$> findAll "msgid" receipt ∧
       length (IncomingGroupReceiptsEvent.receipt_ids ev)
         = length (findAll "msgid" receipt)) ∧
  (∀ receipt g,
     returns (XMPPResponse_init data) →
     is_Some (attrs data !! lit "from") → is_Some (attrs data !! lit "to") →
     find "g" data = Some g → is_Some (attrs g !! lit "jid") →
     find "receipt" data = Some receipt → is_Some (attrs receipt !! lit "type") →
     Forall (λ msgid, is_Some (attrs msgid !! lit "id")) (findAll "msgid" receipt) →
     returns (IncomingGroupReceiptsEvent.init XMPPResponse_init data)).
Proof.
  split.
  - intros ev H. unfold IncomingGroupReceiptsEvent.init in H.
    bind_inv H. bind_inv H. bind_inv H. bind_inv H. bind_inv H. bind_inv H.
    bind_inv H. apply Returned_inj in H as <-. simpl.
    destruct (find "receipt" data) as [receipt|]; [|done].
    apply Returned_inj in Ha3 as <-. exists receipt. split; [done|].
    apply comprehension_Returned in Ha4.
    split; [|symmetry; by eapply Forall2_length].
    induction Ha4 as [|msgid id msgids ids Hid _ IH]; [done|].
    rewrite !fmap_cons, IH. f_equal. symmetry. by apply getitem_Returned.
  - intros receipt g [base Hbase] [from Hfrom]%getitem_returns [to Hto]%getitem_returns
      Hg [jid Hjid]%getitem_returns Hreceipt [ty Hty]%getitem_returns Hids.
    unfold IncomingGroupReceiptsEvent.init.
    rewrite Hbase, Hfrom, Hto, Hg, Hreceipt. simpl. rewrite Hjid, Hty. simpl.
    destruct (comprehension_returns (λ msgid, getitem msgid "id")
                (findAll "msgid" receipt)) as [ids ->].
    { eapply Forall_impl; [done|]. intros msgid. apply getitem_returns. }
    by eexists.
Qed.

(** Receipts for [m-2], [m-1] and [m-2] again: three identifiers, in that
    order, and the constructor returns. *)
Lemma group_receipts_ids_witness :
  IncomingGroupReceiptsEvent.receipt_ids <$>
    IncomingGroupReceiptsEvent.init base_returns group_receipts
  = Returned [lit "m-2"; lit "m-1"; lit "m-2"] ∧
  returns (IncomingGroupReceiptsEvent.init base_returns group_receipts).
Proof.
  split; [vm_compute; reflexivity|].
  apply (proj2 (group_receipts_ids base_returns group_receipts)
           (tag "receipt" [("type", "read")]
              [ element "msgid" [("id", "m-2")] [];
                element "msgid" [("id", "m-1")] [];
                element "msgid" [("id", "m-2")] [] ])
           (tag "g" [("jid", "1100221067977_g@groups.kik.com")] [])).
  - by eexists.
  - vm_compute. by eexists.
  - vm_compute. by eexists.
  - vm_compute. reflexivity.
  - vm_compute. by eexists.
  - vm_compute. reflexivity.
  - vm_compute. by eexists.
  - vm_compute. repeat constructor; by eexists.
Defined.

(** The [msgid] tags are collected at any depth, in document order. *)
Example group_receipts_nested :
  IncomingGroupReceiptsEvent.receipt_ids <$>
    IncomingGroupReceiptsEvent.init base_returns
      (tag "message" [("from", "a"); ("to", "b")]
         [ element "g" [("jid", "1100221067977_g@groups.kik.com")] [];
           element "receipt" [("type", "read")]
             [ element "msgid" [("id", "m-1")] [element "msgid" [("id", "m-2")] []];
               text_node " ";
               element "msgid" [("id", "m-3")] [] ] ])
  = Returned [lit "m-1"; lit "m-2"; lit "m-3"].
Proof. vm_compute. reflexivity. Qed.

Lemma findAll_leaves (n : string) (parent : list N) (a : gmap (list N) (list N))
    (ts : list Tag) :
  Forall (λ t, contents t = [] ∧ name t = lit n) ts →
  findAll n (mkTag parent a (inr <$> ts)) = ts.
Proof.
  intros H. unfold findAll. rewrite descendants_leaves.
  - induction H as [|t ts [_ Ht] _ IH]; [done|].
    rewrite filter_cons_True by done. by rewrite IH.
  - eapply Forall_impl; [done|]. by intros t [? _].
Qed.

(** ** Stickers: the extras table *)

Lemma parse_item_entry (extras_map : gmap (option (list N)) (list N)) (item : Tag)
    (k : option (list N)) (v : list N) :
  item_key item = Some k → item_val item = Some v →
  IncomingGroupSticker.parse_item extras_map item = Returned (<[k := v]> extras_map).
Proof.
  unfold item_key, item_val, IncomingGroupSticker.parse_item.
  destruct (find "val" item) as [val|]; [|done].
  destruct (find "key" item) as [key|]; [|done].
  by intros [= <-] [= <-].
Qed.

Lemma parse_item_Returned (m m' : gmap (option (list N)) (list N)) (item : Tag) :
  IncomingGroupSticker.parse_item m item = Returned m' →
  ∃ k v, item_key item = Some k ∧ item_val item = Some v ∧ m' = <[k := v]> m.
Proof.
  unfold item_key, item_val, IncomingGroupSticker.parse_item.
  destruct (find "val" item) as [val|]; [|done].
  destruct (find "key" item) as [key|]; [|done].
  intros <-%Returned_inj. by eexists _, _.
Qed.

Lemma parse_items_app (m : gmap (option (list N)) (list N)) (l1 l2 : list Tag) :
  IncomingGroupSticker.parse_items m (l1 ++ l2)
  = IncomingGroupSticker.parse_items m l1 ≫= λ m1, IncomingGroupSticker.parse_items m1 l2.
Proof.
  revert m. induction l1 as [|item l1 IH]; intros m; [done|].
  simpl. destruct (IncomingGroupSticker.parse_item m item); simpl; [apply IH | done].
Qed.

(** Whether the table is built depends on the shape of the items only. *)
Lemma parse_items_returns (m : gmap (option (list N)) (list N)) (items : list Tag) :
  Forall (λ item, is_Some (item_key item) ∧ is_Some (item_val item)) items →
  returns (IncomingGroupSticker.parse_items m items).
Proof.
  intros H. revert m.
  induction H as [|item items [[k Hk] [v Hv]] _ IH]; intros m; [by eexists|].
  simpl. rewrite (parse_item_entry _ _ _ _ Hk Hv). simpl. apply IH.
Qed.

(** Items with other keys leave the entry of [k] as it was. *)
Lemma parse_items_other_keys (m m' : gmap (option (list N)) (list N))
    (items : list Tag) (k : option (list N)) :
  IncomingGroupSticker.parse_items m items = Returned m' →
  Forall (λ item, item_key item ≠ Some k) items →
  m' !! k = m !! k.
Proof.
  intros H Hk. revert m H.
  induction Hk as [|item items Hitem _ IH]; intros m H; simpl in H.
  - by apply Returned_inj in H as <-.
  - bind_inv H. apply parse_item_Returned in Ha as (k' & v & Hk' & _ & ->).
    rewrite (IH _ H). apply lookup_insert_ne. congruence.
Qed.

(** Every key that occurs ends up in the table. *)
Lemma parse_items_keeps_keys (m m' : gmap (option (list N)) (list N))
    (items : list Tag) (k : option (list N)) :
  IncomingGroupSticker.parse_items m items = Returned m' →
  is_Some (m !! k) ∨ (∃ item, item ∈ items ∧ item_key item = Some k) →
  is_Some (m' !! k).
Proof.
  revert m. induction items as [|item items IH]; intros m H Hk; simpl in H.
  - apply Returned_inj in H as <-. destruct Hk as [?|(? & []%elem_of_nil & _)]. done.
  - bind_inv H. apply parse_item_Returned in Ha as (k' & v & Hk' & _ & ->).
    apply (IH _ H). destruct Hk as [Hk|(item' & [->|Hin]%elem_of_cons & Hkey)].
    + left. destruct (decide (k' = k)) as [->|]; [by rewrite lookup_insert_eq|].
      by rewrite lookup_insert_ne.
    + left. assert (k' = k) as -> by congruence. by rewrite lookup_insert_eq.
    + right. by exists item'.
Qed.

(** Two runs over the same items from tables that agree on [k] agree on [k]. *)
Lemma parse_items_agree (m1 m2 m1' m2' : gmap (option (list N)) (list N))
    (items : list Tag) (k : option (list N)) :
  IncomingGroupSticker.parse_items m1 items = Returned m1' →
  IncomingGroupSticker.parse_items m2 items = Returned m2' →
  m1 !! k = m2 !! k → m1' !! k = m2' !! k.
Proof.
  revert m1 m2. induction items as [|item items IH]; intros m1 m2 H1 H2 Hk; simpl in *.
  - apply Returned_inj in H1 as <-. by apply Returned_inj in H2 as <-.
  - bind_inv H1. bind_inv H2.
    apply parse_item_Returned in Ha as (k1 & v1 & Hk1 & Hv1 & ->).
    apply parse_item_Returned in Ha0 as (k2 & v2 & Hk2 & Hv2 & ->).
    apply (IH _ _ H1 H2).
    assert (k2 = k1) as -> by congruence. assert (v2 = v1) as -> by congruence.
    destruct (decide (k1 = k)) as [->|]; [by rewrite !lookup_insert_eq|].
    by rewrite !lookup_insert_ne.
Qed.

Lemma sticker_init_table {Base} (XMPPResponse_init : Tag → outcome Base)
    (data : Tag) (ev : IncomingGroupSticker.t Base) :
  IncomingGroupSticker.init XMPPResponse_init data = Returned ev →
  ∃ content extras_map,
    find "content" data = Some content ∧
    IncomingGroupSticker.parse_extras (find "extras" content) = Returned extras_map ∧
    IncomingGroupSticker.sticker_pack_id ev = extras_map !! Some (lit "sticker_pack_id") ∧
    IncomingGroupSticker.sticker_url ev = extras_map !! Some (lit "sticker_url") ∧
    IncomingGroupSticker.sticker_id ev = extras_map !! Some (lit "sticker_id") ∧
    IncomingGroupSticker.sticker_source ev = extras_map !! Some (lit "sticker_source").
Proof.
  unfold IncomingGroupSticker.init. intros H.
  bind_inv H. destruct (find "content" data) as [content|]; [|by bind_inv H].
  cbn [getattr mbind outcome_bind] in H.
  bind_inv H. bind_inv H. bind_inv H. bind_inv H. bind_inv H.
  apply Returned_inj in H as <-. by eexists content, _.
Qed.

(** ** Stickers: items with the same key *)

(** C10.  When the items of the extras all have a [key] and a [val], the
    table maps the key of an item after which no item has the same key to
    the text of that item's [val]: the last of several items with one key
    wins.  The entries of all other keys are what they are without that
    item. *)
Theorem parse_extras_last_item_wins (extras : Tag) (earlier later : list Tag)
    (item : Tag) (k : option (list N)) (v : list N) :
  findAll "item" extras = earlier ++ item :: later →
  Forall (λ i, is_Some (item_key i) ∧ is_Some (item_val i)) (earlier ++ later) →
  item_key item = Some k → item_val item = Some v →
  Forall (λ i, item_key i ≠ Some k) later →
  ∃ extras_map without,
    IncomingGroupSticker.parse_extras (Some extras) = Returned extras_map ∧
    extras_map !! k = Some v ∧
    IncomingGroupSticker.parse_items ∅ (earlier ++ later) = Returned without ∧
    ∀ k', k' ≠ k → extras_map !! k' = without !! k'.
Proof.
  intros Hitems Hwf Hk Hv Hlater.
  unfold IncomingGroupSticker.parse_extras. simpl. rewrite Hitems.
  destruct (parse_items_returns ∅ _ Hwf) as [without Hwithout].
  pose proof Hwithout as H. rewrite parse_items_app in H.
  apply bind_Returned in H as (m1 & Hm1 & Hm2).
  apply Forall_app in Hwf as [_ Hwf_later].
  destruct (parse_items_returns (<[k := v]> m1) _ Hwf_later) as [m Hm].
  exists m, without.
  assert (IncomingGroupSticker.parse_items ∅ (earlier ++ item :: later) = Returned m) as Hall.
  { rewrite parse_items_app, Hm1. simpl.
    by rewrite (parse_item_entry _ _ _ _ Hk Hv). }
  split; [done|]. split.
  { rewrite (parse_items_other_keys _ _ _ _ Hm Hlater). apply lookup_insert_eq. }
  split; [done|].
  intros k' Hne. apply (parse_items_agree _ _ _ _ _ _ Hm Hm2).
  by apply lookup_insert_ne.
Qed.

(** [sticker_id] given as 7, then [origin], then [sticker_id] given as 8:
    the table has 8, and [origin] is what it is without the last item. *)
Lemma parse_extras_last_item_wins_witness :
  ∃ extras_map without,
    IncomingGroupSticker.parse_extras (Some extras_with_duplicate) = Returned extras_map ∧
    extras_map !! Some (lit "sticker_id") = Some (lit "8") ∧
    IncomingGroupSticker.parse_items ∅
      ([ tag "item" []
           [element "key" [] [text_node "sticker_id"]; element "val" [] [text_node "7"]];
         tag "item" []
           [element "key" [] [text_node "origin"]; element "val" [] [text_node "keyboard"]] ]
       ++ []) = Returned without ∧
    ∀ k', k' ≠ Some (lit "sticker_id") → extras_map !! k' = without !! k'.
Proof.
  apply (parse_extras_last_item_wins extras_with_duplicate
           [ tag "item" []
               [element "key" [] [text_node "sticker_id"]; element "val" [] [text_node "7"]];
             tag "item" []
               [element "key" [] [text_node "origin"]; element "val" [] [text_node "keyboard"]] ]
           []
           (tag "item" []
              [element "key" [] [text_node "sticker_id"]; element "val" [] [text_node "8"]])
           (Some (lit "sticker_id")) (lit "8")).
  - vm_compute. reflexivity.
  - vm_compute. repeat constructor; by eexists.
  - vm_compute. reflexivity.
  - vm_compute. reflexivity.
  - constructor.
Defined.

(** * Further properties of the serializers *)

(** The only exception of a serializer is the one of [encode]. *)
Lemma serialize_raises (escape_xml : list N → list N)
    (el : XMPPElement) (message_id : list N) (world : World) (e : exn) :
  serialize escape_xml el message_id world = Raised e →
  ∃ p, e = UnicodeEncodeError p.
Proof.
  rewrite serialize_stanza.
  destruct el as [x|x|x|x|x|x]; cbn [stanza].
  - rewrite chat_message_data. apply encode_from_raises.
  - rewrite read_receipt_data. apply encode_from_raises.
  - rewrite delivered_receipt_data. apply encode_from_raises.
  - rewrite is_typing_data. apply encode_from_raises.
  - rewrite group_is_typing_data. apply encode_from_raises.
  - rewrite link_share_data. apply encode_from_raises.
Qed.

(** ** The mention element *)

(** X1.  A chat message carries a [mention] element, between [body] and
    [preview], exactly when [bot_mention_jid] is a non-empty string: [None]
    and the empty string both leave [preview] directly after [body].  With
    fields free of markup the stanza has a [mention] tag in no other case. *)
Theorem chat_message_mention (escape_xml : list N → list N)
    (self : OutgoingChatMessage.t) (message_id : list N) (world : World) :
  no_markup (OutgoingChatMessage.peer_jid self) → no_markup message_id →
  no_markup (escape_xml (OutgoingChatMessage.body self)) →
  no_markup (escape_xml (slice_to 20 (OutgoingChatMessage.body self))) →
  ∃ text before after,
    OutgoingChatMessage.data escape_xml self message_id world = Returned text ∧
    match OutgoingChatMessage.bot_mention_jid self with
    | Some (c :: jid) =>
      text = before ++ lit "</body><mention><bot>" ++ c :: jid ++
             lit "</bot></mention><preview>" ++ after ∧
      contains (lit "<mention>") text = true
    | _ =>
      text = before ++ lit "</body><preview>" ++ after ∧
      contains (lit "<mention>") text = false
    end.
Proof.
  intros Hpeer Hid Hbody Hpreview.
  eexists _, (lit "<message type='" ++
              (if OutgoingChatMessage.is_group self then lit "groupchat" else lit "chat") ++
              lit "' to='" ++ OutgoingChatMessage.peer_jid self ++
              lit "' id='" ++ message_id ++
              lit "' cts='" ++ str_int (clock_ms world) ++
              lit "'><body>" ++ escape_xml (OutgoingChatMessage.body self)),
             (escape_xml (slice_to 20 (OutgoingChatMessage.body self)) ++
              preview_tail (str_int (clock_ms world))).
  split; [apply chat_message_data|].
  unfold mention_text.
  destruct (OutgoingChatMessage.bot_mention_jid self) as [[|c jid]|]; cbn [truthy str_opt].
  - split; [by rewrite <- !app_assoc|].
    change (lit "<mention>") with (60 :: lit "mention>").
    rewrite app_nil_l. unfold preview_tail.
    destruct (OutgoingChatMessage.is_group self); skip_markup; vm_compute; reflexivity.
  - split; [by rewrite <- !app_assoc|].
    do 11 apply contains_app_r. vm_compute. reflexivity.
  - split; [by rewrite <- !app_assoc|].
    change (lit "<mention>") with (60 :: lit "mention>").
    rewrite app_nil_l. unfold preview_tail.
    destruct (OutgoingChatMessage.is_group self); skip_markup; vm_compute; reflexivity.
Qed.

(** A chat message whose mention is the empty string. *)
Lemma chat_message_mention_witness :
  ∃ text before after,
    OutgoingChatMessage.data escape_xml
      {| OutgoingChatMessage.peer_jid := lit "bob@talk.kik.com";
         OutgoingChatMessage.body := lit "a < b";
         OutgoingChatMessage.is_group := false;
         OutgoingChatMessage.bot_mention_jid := Some (lit "") |}
      (lit "id-1") a_moment = Returned text ∧
    text = before ++ lit "</body><preview>" ++ after ∧
    contains (lit "<mention>") text = false.
Proof.
  apply (chat_message_mention escape_xml
           {| OutgoingChatMessage.peer_jid := lit "bob@talk.kik.com";
              OutgoingChatMessage.body := lit "a < b";
              OutgoingChatMessage.is_group := false;
              OutgoingChatMessage.bot_mention_jid := Some (lit "") |}
           (lit "id-1") a_moment);
    vm_compute; repeat constructor; discriminate.
Defined.

(** ** Receipts *)

(** X2.  A read receipt that carries no group element and the delivered
    receipt for the same peer and message are the same stanza but for the
    word [read] or [delivered] in the [type] attribute of [receipt]. *)
Theorem read_and_delivered_receipt (peer_jid receipt_message_id : list N)
    (group_jid : option (list N)) (message_id : list N) (world : World) :
  contains (lit "groups") (str_opt group_jid) = false →
  ∃ before after,
    OutgoingReadReceipt.data
      {| OutgoingReadReceipt.peer_jid := peer_jid;
         OutgoingReadReceipt.receipt_message_id := receipt_message_id;
         OutgoingReadReceipt.group_jid := group_jid |} message_id world
    = Returned (before ++ lit "type='read'>" ++ after) ∧
    OutgoingDeliveredReceipt.data
      {| OutgoingDeliveredReceipt.peer_jid := peer_jid;
         OutgoingDeliveredReceipt.receipt_message_id := receipt_message_id |}
      message_id world
    = Returned (before ++ lit "type='delivered'>" ++ after).
Proof.
  intros Hgroup.
  exists (lit "<message type='receipt' id='" ++ message_id ++ lit "' to='" ++
          peer_jid ++ lit "' cts='" ++ str_int (clock_ms world) ++
          lit "'><kik push='false' qos='true' timestamp='" ++
          str_int (clock_ms world) ++
          lit "' /><receipt xmlns='kik:message:receipt' "),
         (lit "<msgid id='" ++ receipt_message_id ++ lit "' /></receipt></message>").
  rewrite read_receipt_data, delivered_receipt_data.
  cbn [OutgoingReadReceipt.peer_jid OutgoingReadReceipt.receipt_message_id
       OutgoingReadReceipt.group_jid OutgoingDeliveredReceipt.peer_jid
       OutgoingDeliveredReceipt.receipt_message_id].
  rewrite Hgroup. unfold receipt_text. rewrite <- !app_assoc.
  split; do 10 f_equal.
Qed.

(** The two receipts for one message, without a group. *)
Lemma read_and_delivered_receipt_witness :
  ∃ before after,
    OutgoingReadReceipt.data
      {| OutgoingReadReceipt.peer_jid := lit "bob@talk.kik.com";
         OutgoingReadReceipt.receipt_message_id := lit "m-1";
         OutgoingReadReceipt.group_jid := None |} (lit "id-1")
      a_moment
    = Returned (before ++ lit "type='read'>" ++ after) ∧
    OutgoingDeliveredReceipt.data
      {| OutgoingDeliveredReceipt.peer_jid := lit "bob@talk.kik.com";
         OutgoingDeliveredReceipt.receipt_message_id := lit "m-1" |}
      (lit "id-1") a_moment
    = Returned (before ++ lit "type='delivered'>" ++ after).
Proof.
  apply (read_and_delivered_receipt (lit "bob@talk.kik.com") (lit "m-1") None
           (lit "id-1") a_moment).
  vm_compute. reflexivity.
Defined.

(** ** Typing events *)

(** X3.  The typing event for a group is the typing event for a single peer
    with the type [groupchat] in place of [chat] and an empty [pb] element
    put first; [val] is [true] or [false].  With identifiers free of markup,
    neither stanza asks for a receipt. *)
Theorem typing_events (peer_jid : list N) (is_typing : bool)
    (message_id : list N) (world : World) :
  ∃ single group attributes rest,
    OutgoingIsTypingEvent.data
      {| OutgoingIsTypingEvent.peer_jid := peer_jid;
         OutgoingIsTypingEvent.is_typing := is_typing |} message_id world
    = Returned single ∧
    OutgoingGroupIsTypingEvent.data
      {| OutgoingGroupIsTypingEvent.peer_jid := peer_jid;
         OutgoingGroupIsTypingEvent.is_typing := is_typing |} message_id world
    = Returned group ∧
    single = lit "<message type='chat'" ++ attributes ++ rest ∧
    group = lit "<message type='groupchat'" ++ attributes ++ lit "<pb></pb>" ++ rest ∧
    attributes = lit " to='" ++ peer_jid ++ lit "' id='" ++ message_id ++ lit "'>" ∧
    rest = lit "<kik push='false' qos='false' timestamp='" ++
           str_int (clock_ms world) ++ lit "' /><is-typing val='" ++
           (if is_typing then lit "true" else lit "false") ++ lit "' /></message>" ∧
    (no_markup peer_jid → no_markup message_id →
     contains (lit "<request") single = false ∧
     contains (lit "<request") group = false).
Proof.
  eexists _, _, _, _.
  split; [apply is_typing_data|]. split; [apply group_is_typing_data|].
  cbn [OutgoingIsTypingEvent.peer_jid OutgoingIsTypingEvent.is_typing
       OutgoingGroupIsTypingEvent.peer_jid OutgoingGroupIsTypingEvent.is_typing].
  split; [|split; [|split; [reflexivity|split; [reflexivity|]]]].
  - rewrite <- !app_assoc. reflexivity.
  - rewrite <- !app_assoc. reflexivity.
  - intros Hpeer Hid. change (lit "<request") with (60 :: lit "request").
    unfold str_bool_lower.
    split; destruct is_typing; skip_markup; vm_compute; reflexivity.
Qed.

(** ** What makes a serializer fail *)

Lemma encodable_if (b : bool) (x y : list N) :
  encodable x → encodable y → encodable (if b then x else y).
Proof. by destruct b. Qed.

(** X4.  No serializer fails while it builds its text: [serialize] returns
    exactly when none of the strings it puts into the stanza holds a lone
    surrogate, and otherwise raises [UnicodeEncodeError].  The group
    identifier of a read receipt counts only when the receipt carries it. *)
Theorem serialize_returns (escape_xml : list N → list N) (el : XMPPElement)
    (message_id : list N) (world : World) :
  (returns (serialize escape_xml el message_id world) ↔
   Forall encodable (placed_strings escape_xml el message_id)) ∧
  (¬ Forall encodable (placed_strings escape_xml el message_id) →
   ∃ position, serialize escape_xml el message_id world
               = Raised (UnicodeEncodeError position)).
Proof.
  assert (returns (serialize escape_xml el message_id world) ↔
          Forall encodable (placed_strings escape_xml el message_id)) as Hiff.
  { rewrite serialize_stanza.
    pose proof encodable_lit as Hlit. pose proof encodable_str_int as Hint.
    destruct el as [e|e|e|e|e|e]; cbn [stanza placed_strings].
    - rewrite chat_message_data. cbn [mbind outcome_bind].
      rewrite str_encode_returns. unfold preview_tail.
      rewrite !encodable_app, !Forall_cons, Forall_nil.
      assert (encodable (if OutgoingChatMessage.is_group e
                         then lit "groupchat" else lit "chat"))
        by (apply encodable_if; apply encodable_lit).
      split; intros ?; destruct_and?; repeat split; auto.
    - rewrite read_receipt_data. cbn [mbind outcome_bind].
      rewrite str_encode_returns. unfold receipt_text, g_element.
      destruct (contains (lit "groups") _);
        rewrite !encodable_app, ?Forall_app, !Forall_cons, Forall_nil;
        split; intros ?; destruct_and?; repeat split; auto; constructor.
    - rewrite delivered_receipt_data. cbn [mbind outcome_bind].
      rewrite str_encode_returns. unfold receipt_text.
      rewrite !encodable_app, !Forall_cons, Forall_nil.
      split; intros ?; destruct_and?; repeat split; auto.
    - rewrite is_typing_data. cbn [mbind outcome_bind].
      rewrite str_encode_returns. unfold str_bool_lower.
      rewrite !encodable_app, !Forall_cons, Forall_nil.
      split; intros ?; destruct_and?; repeat split; auto.
      apply encodable_if; apply encodable_lit.
    - rewrite group_is_typing_data. cbn [mbind outcome_bind].
      rewrite str_encode_returns. unfold str_bool_lower.
      rewrite !encodable_app, !Forall_cons, Forall_nil.
      split; intros ?; destruct_and?; repeat split; auto.
      apply encodable_if; apply encodable_lit.
    - rewrite link_share_data. cbn [mbind outcome_bind].
      rewrite str_encode_returns. unfold link_share_opening.
      rewrite !encodable_app, !Forall_cons, Forall_nil.
      split; intros ?; destruct_and?; repeat split; auto.
      apply encodable_if; apply encodable_lit. }
  split; [done|]. intros Hno.
  destruct (serialize escape_xml el message_id world) as [bytes|e] eqn:Hs.
  - destruct Hno. apply Hiff. by eexists.
  - destruct (serialize_raises escape_xml el message_id world e Hs)
      as [p ->]. by exists p.
Qed.

(** ** The timestamp *)

Lemma lit_String (a : ascii) (s : string) : lit (String a s) = code_point a :: lit s.
Proof. reflexivity. Qed.

(** [str(n)] is made of digits and at most a sign. *)
Lemma str_int_characters (n : Z) :
  Forall (λ c, c = 45 ∨ (48 ≤ c ∧ c ≤ 57)) (str_int n).
Proof.
  unfold str_int.
  assert (∀ d, Forall (λ c, c = 45 ∨ (48 ≤ c ∧ c ≤ 57))
                 (lit (NilEmpty.string_of_uint d))) as Huint.
  { induction d; simpl; rewrite ?lit_String; [constructor|..];
      (constructor; [right; vm_compute; split; discriminate | done]). }
  destruct (Z.to_int n); simpl; [apply Huint|].
  rewrite lit_String. constructor; [by left | apply Huint].
Qed.

Lemma lit_string_of_uint_inj (d1 d2 : Decimal.uint) :
  lit (NilEmpty.string_of_uint d1) = lit (NilEmpty.string_of_uint d2) → d1 = d2.
Proof.
  revert d2. induction d1; intros [] H; simpl in H; rewrite ?lit_String in H;
    try discriminate H; try reflexivity;
    injection H as H; f_equal; by apply IHd1.
Qed.

Lemma str_int_inj (a b : Z) : str_int a = str_int b → a = b.
Proof.
  unfold str_int. intros H.
  rewrite <- (DecimalZ.of_to a), <- (DecimalZ.of_to b). f_equal.
  destruct (Z.to_int a) as [d1|d1], (Z.to_int b) as [d2|d2]; simpl in H;
    rewrite ?lit_String in H.
  - f_equal. by apply lit_string_of_uint_inj.
  - destruct d1; discriminate H.
  - destruct d2; discriminate H.
  - injection H as H. f_equal. by apply lit_string_of_uint_inj.
Qed.

(** Two printed integers followed by a quote are cut at the same place. *)
Lemma str_int_cut (a b : Z) (r1 r2 : list N) :
  str_int a ++ r1 = str_int b ++ r2 → head r1 = Some 34 → head r2 = Some 34 →
  a = b.
Proof.
  intros H H1 H2. apply str_int_inj.
  pose proof (str_int_characters a) as Ha. pose proof (str_int_characters b) as Hb.
  revert H Ha Hb. generalize (str_int a), (str_int b). intros s1.
  induction s1 as [|c s1 IH]; intros [|c' s2] H Ha Hb.
  - done.
  - destruct r1 as [|q r1]; [done|]. injection H1 as ->. injection H as <- _.
    apply Forall_cons in Hb as [[?|[? ?]] _]; [done|lia].
  - destruct r2 as [|q r2]; [done|]. injection H2 as ->. injection H as -> _.
    apply Forall_cons in Ha as [[?|[? ?]] _]; [done|lia].
  - injection H as -> H. f_equal.
    apply Forall_cons in Ha as [_ Ha]. apply Forall_cons in Hb as [_ Hb]. by apply IH.
Qed.

(** X5.  The stanza tells the time it was built: for every outbound variant,
    an element and a [message_id] give the same text at two clock readings
    only when the readings are equal. *)
Theorem stanza_determines_clock (escape_xml : list N → list N) (el : XMPPElement)
    (message_id : list N) (world1 world2 : World) :
  stanza escape_xml el message_id world1 = stanza escape_xml el message_id world2 →
  clock_ms world1 = clock_ms world2.
Proof.
  destruct el as [e|e|e|e|e|e]; cbn [stanza].
  - rewrite !chat_message_data. intros H%Returned_inj.
    repeat apply app_inv_head in H. by apply str_int_cut in H.
  - rewrite !read_receipt_data. intros H%Returned_inj. unfold receipt_text in H.
    rewrite <- !app_assoc in H.
    repeat apply app_inv_head in H. by apply str_int_cut in H.
  - rewrite !delivered_receipt_data. intros H%Returned_inj. unfold receipt_text in H.
    rewrite <- !app_assoc in H.
    repeat apply app_inv_head in H. by apply str_int_cut in H.
  - rewrite !is_typing_data. intros H%Returned_inj.
    repeat apply app_inv_head in H. by apply str_int_cut in H.
  - rewrite !group_is_typing_data. intros H%Returned_inj.
    repeat apply app_inv_head in H. by apply str_int_cut in H.
  - rewrite !link_share_data. intros H%Returned_inj.
    repeat apply app_inv_head in H. by apply str_int_cut in H.
Qed.

(** The one reading at which a receipt gives the same text twice. *)
Lemma stanza_determines_clock_witness :
  stanza escape_xml (DeliveredReceipt delivered_receipt) (lit "id-1")
    a_moment
  = stanza escape_xml (DeliveredReceipt delivered_receipt) (lit "id-1")
      a_moment ∧
  clock_ms a_moment = clock_ms a_moment.
Proof.
  split; [reflexivity|].
  apply (stanza_determines_clock escape_xml (DeliveredReceipt delivered_receipt)
           (lit "id-1") a_moment a_moment).
  reflexivity.
Defined.

(** * Further properties of the decoders *)

(** In what follows, the [x] element of a stanza is the one that [data.x]
    and [data.find('x')] return: the first [x] in document order, at any
    depth.  A later element of the same name is never looked at. *)

Set Warnings "-clear-no-such-hyp".

(** ** Lookups that return *)

Lemma subscript_Returned (x : option Tag) (key : string) (v : list N) :
  subscript x key = Returned v ↔ ∃ t, x = Some t ∧ attrs t !! lit key = Some v.
Proof.
  destruct x as [t|]; simpl.
  - rewrite getitem_Returned. split; [by exists t | by intros (? & [= <-] & ?)].
  - split; [done | by intros (? & [=] & _)].
Qed.

Lemma is_true_Returned (x : option Tag) (key : string) (b : bool) :
  is_true x key = Returned b ↔
  ∃ t v, x = Some t ∧ attrs t !! lit key = Some v ∧ b = bool_decide (v = lit "true").
Proof.
  unfold is_true. rewrite bind_Returned. split.
  - intros (v & (t & -> & Hv)%subscript_Returned & <-%Returned_inj). by exists t, v.
  - intros (t & v & -> & Hv & ->). exists v. split; [|done].
    apply subscript_Returned. by exists t.
Qed.

Lemma getattr_Returned {A} (x : option Tag) (a : string) (get : Tag → A) (r : A) :
  getattr x a get = Returned r ↔ ∃ t, x = Some t ∧ r = get t.
Proof.
  destruct x as [t|]; simpl.
  - split; [intros <-%Returned_inj; by exists t | by intros (? & [= <-] & ->)].
  - split; [done | by intros (? & [=] & _)].
Qed.

Lemma returns_bind {A B} (m : outcome A) (f : A → outcome B) :
  returns (m ≫= f) ↔ ∃ a, m = Returned a ∧ returns (f a).
Proof.
  destruct m as [a|e]; simpl.
  - split; [by exists a | by intros (? & [= <-] & ?)].
  - split; [by intros [? ?] | by intros (? & [=] & _)].
Qed.

Lemma returns_Returned {A} (a : A) : returns (Returned a) ↔ True.
Proof. split; [done | by exists a]. Qed.

Lemma returns_getitem (t : Tag) (key : string) :
  returns (getitem t key) ↔ is_Some (attrs t !! lit key).
Proof.
  unfold getitem. destruct (attrs t !! lit key) as [v|]; split.
  - intros _. by exists v.
  - intros _. by exists v.
  - by intros [? ?].
  - by intros [? ?].
Qed.

Lemma returns_subscript (x : option Tag) (key : string) :
  returns (subscript x key) ↔ ∃ t, x = Some t ∧ is_Some (attrs t !! lit key).
Proof.
  destruct x as [t|]; simpl.
  - rewrite returns_getitem. split; [by exists t | by intros (? & [= <-] & ?)].
  - split; [by intros [? ?] | by intros (? & [=] & _)].
Qed.

Lemma returns_is_true (x : option Tag) (key : string) :
  returns (is_true x key) ↔ ∃ t, x = Some t ∧ is_Some (attrs t !! lit key).
Proof.
  unfold is_true. rewrite returns_bind, <- returns_subscript. split.
  - intros (v & Hv & _). by exists v.
  - intros [v Hv]. exists v. split; [done | by eexists].
Qed.

Lemma returns_getattr {A} (x : option Tag) (a : string) (get : Tag → A) :
  returns (getattr x a get) ↔ is_Some x.
Proof.
  destruct x as [t|]; simpl; split.
  - intros _. by exists t.
  - intros _. by exists (get t).
  - by intros [? ?].
  - by intros [? ?].
Qed.

(** [data.request[a] == 'true' if data.request else False] returns unless
    there is a [request] element without the attribute. *)
Lemma returns_request_flag (a : string) (data : Tag) :
  returns (IncomingChatMessage.request_flag a data) ↔
  ∀ request, find "request" data = Some request → is_Some (attrs request !! lit a).
Proof.
  unfold IncomingChatMessage.request_flag.
  destruct (find "request" data) as [request|].
  - rewrite returns_is_true. split.
    + intros (? & [= <-] & ?) ? [= <-]. done.
    + intros H. exists request. split; [done | by apply H].
  - split; [done | intros _; by eexists].
Qed.

(** [data.g['jid'] if data.g else None] *)
Lemma optional_group_jid (data : Tag) (o : option (list N)) :
  (if find "g" data is Some _
   then Some <$> subscript (find "g" data) "jid"
   else Returned None) = Returned o ↔
  match find "g" data with
  | Some g => ∃ jid, attrs g !! lit "jid" = Some jid ∧ o = Some jid
  | None => o = None
  end.
Proof.
  destruct (find "g" data) as [g|]; simpl.
  - unfold getitem. destruct (attrs g !! lit "jid") as [jid|]; simpl.
    + split; [intros <-%Returned_inj; by exists jid | by intros (? & [= <-] & ->)].
    + split; [done | by intros (? & [=] & _)].
  - split; [by intros <-%Returned_inj | by intros ->].
Qed.

Lemma fmap_Returned {A B} (f : A → B) (m : outcome A) (b : B) :
  f <$> m = Returned b ↔ ∃ a, m = Returned a ∧ b = f a.
Proof.
  destruct m as [a|e]; simpl.
  - split; [intros <-%Returned_inj; by exists a | by intros (? & [= <-] & ->)].
  - split; [done | by intros (? & [=] & _)].
Qed.

Lemma optional_group_jid_cases (data : Tag) (o : option (list N)) :
  (if find "g" data is Some _
   then Some <$> subscript (find "g" data) "jid"
   else Returned None) = Returned o ↔
  (find "g" data = None ∧ o = None) ∨
  (∃ g jid, find "g" data = Some g ∧ attrs g !! lit "jid" = Some jid ∧ o = Some jid).
Proof.
  rewrite optional_group_jid. destruct (find "g" data) as [g|]; naive_solver.
Qed.

(** ** Read and delivered events *)

Lemma read_event_init {Base} (XMPPResponse_init : Tag → outcome Base) (data : Tag)
    (ev : IncomingMessageReadEvent.t Base) :
  IncomingMessageReadEvent.init XMPPResponse_init data = Returned ev ↔
  ∃ base receipt msgid id from,
    XMPPResponse_init data = Returned base ∧
    find "receipt" data = Some receipt ∧ find "msgid" receipt = Some msgid ∧
    attrs msgid !! lit "id" = Some id ∧ attrs data !! lit "from" = Some from ∧
    match find "g" data with
    | Some g =>
      ∃ jid, attrs g !! lit "jid" = Some jid ∧
             ev = {| IncomingMessageReadEvent.base := base;
                     IncomingMessageReadEvent.receipt_message_id := id;
                     IncomingMessageReadEvent.from_jid := from;
                     IncomingMessageReadEvent.group_jid := Some jid |}
    | None =>
      ev = {| IncomingMessageReadEvent.base := base;
              IncomingMessageReadEvent.receipt_message_id := id;
              IncomingMessageReadEvent.from_jid := from;
              IncomingMessageReadEvent.group_jid := None |}
    end.
Proof.
  unfold IncomingMessageReadEvent.init. split.
  - intros H. bind_inv H. bind_inv H. bind_inv H. bind_inv H. bind_inv H.
    apply Returned_inj in H as <-.
    apply getattr_Returned in Ha0 as (receipt & Hreceipt & ->).
    apply subscript_Returned in Ha1 as (msgid & Hmsgid & Hid).
    apply getitem_Returned in Ha2. apply optional_group_jid in Ha3.
    exists a, receipt, msgid, a1, a2. repeat (split; [done|]).
    destruct (find "g" data); [|by subst].
    destruct Ha3 as (jid & ? & ->). by exists jid.
  - intros (base & receipt & msgid & id & from & -> & -> & Hmsgid & Hid & Hfrom & Hg).
    apply getitem_Returned in Hid, Hfrom.
    cbn [getattr mbind outcome_bind]. rewrite Hmsgid.
    cbn [subscript]. rewrite Hid, Hfrom. cbn [mbind outcome_bind].
    destruct (find "g" data) as [g|].
    + destruct Hg as (jid & Hjid%getitem_Returned & ->).
      cbn [subscript]. by rewrite Hjid.
    + by subst.
Qed.

(** X6.  A read event, and a delivered event alike, is decoded exactly when
    the first [msgid] below the first [receipt] element of the stanza has an
    [id], the stanza has a [from] attribute, and its first [g] element, if
    there is one, has [jid]; a later [g] is not looked at.  The message
    identifier is the [id] of that [msgid]; the group identifier is [None]
    exactly when the stanza has no [g] element at any depth, and the [jid]
    of the first one otherwise.  A delivered event is decoded to the same
    values or the same exception. *)
Theorem read_and_delivered_events {Base} (XMPPResponse_init : Tag → outcome Base)
    (data : Tag) :
  (returns (IncomingMessageReadEvent.init XMPPResponse_init data) ↔
   returns (XMPPResponse_init data) ∧
   (∃ receipt msgid, find "receipt" data = Some receipt ∧
                     find "msgid" receipt = Some msgid ∧
                     is_Some (attrs msgid !! lit "id")) ∧
   is_Some (attrs data !! lit "from") ∧
   (∀ g, find "g" data = Some g → is_Some (attrs g !! lit "jid"))) ∧
  (∀ ev, IncomingMessageReadEvent.init XMPPResponse_init data = Returned ev →
     (IncomingMessageReadEvent.group_jid ev = None ↔ find "g" data = None) ∧
     (∀ g, find "g" data = Some g →
           IncomingMessageReadEvent.group_jid ev = attrs g !! lit "jid") ∧
     (∃ receipt msgid,
        find "receipt" data = Some receipt ∧ find "msgid" receipt = Some msgid ∧
        attrs msgid !! lit "id" = Some (IncomingMessageReadEvent.receipt_message_id ev))) ∧
  (λ ev : IncomingMessageDeliveredEvent.t Base,
     (IncomingMessageDeliveredEvent.receipt_message_id ev,
      IncomingMessageDeliveredEvent.from_jid ev,
      IncomingMessageDeliveredEvent.group_jid ev)) <$>
    IncomingMessageDeliveredEvent.init XMPPResponse_init data
  = (λ ev : IncomingMessageReadEvent.t Base,
       (IncomingMessageReadEvent.receipt_message_id ev,
        IncomingMessageReadEvent.from_jid ev,
        IncomingMessageReadEvent.group_jid ev)) <$>
      IncomingMessageReadEvent.init XMPPResponse_init data.
Proof.
  split; [|split].
  - split.
    + intros [ev (base & receipt & msgid & id & from & Hb & Hr & Hm & Hid & Hf & Hg)%read_event_init].
      split; [by eexists|]. split; [by eexists receipt, msgid|]. split; [done|].
      intros g Hfind. rewrite Hfind in Hg. by destruct Hg as (? & -> & _).
    + intros ([base Hb] & (receipt & msgid & Hr & Hm & [id Hid]) & [from Hf] & Hg).
      destruct (find "g" data) as [g|] eqn:Hfind.
      * destruct (Hg g eq_refl) as [jid Hjid]. eexists. apply read_event_init.
        exists base, receipt, msgid, id, from. rewrite Hfind.
        repeat (split; [done|]). by exists jid.
      * eexists. apply read_event_init.
        exists base, receipt, msgid, id, from. rewrite Hfind. done.
  - intros ev (base & receipt & msgid & id & from & Hb & Hr & Hm & Hid & Hf & Hg)%read_event_init.
    destruct (find "g" data) as [g|].
    + destruct Hg as (jid & Hjid & ->). simpl. split; [done|]. split.
      * by intros ? [= <-].
      * by exists receipt, msgid.
    + subst ev. simpl. split; [done|]. split; [done|]. by exists receipt, msgid.
  - unfold IncomingMessageDeliveredEvent.init, IncomingMessageReadEvent.init.
    repeat match goal with
           | |- context [mbind _ ?m] =>
             destruct m; cbn [mbind outcome_bind fmap outcome_fmap mret outcome_ret];
             [|done]
           end.
    reflexivity.
Qed.

(** A read receipt from a member of a group. *)
Lemma read_and_delivered_events_witness :
  IncomingMessageReadEvent.init base_returns read_event_stanza
  = Returned {| IncomingMessageReadEvent.base := ();
                IncomingMessageReadEvent.receipt_message_id := lit "m-2";
                IncomingMessageReadEvent.from_jid := lit "alice_k3x@talk.kik.com";
                IncomingMessageReadEvent.group_jid :=
                  Some (lit "1100221067977_g@groups.kik.com") |} ∧
  returns (IncomingMessageReadEvent.init base_returns read_event_stanza).
Proof.
  split; [vm_compute; reflexivity|].
  apply (proj1 (read_and_delivered_events base_returns read_event_stanza)).
  split; [by eexists|]. split; [|split].
  - eexists _, _. split; [vm_compute; reflexivity|].
    split; [vm_compute; reflexivity|]. vm_compute. by eexists.
  - vm_compute. by eexists.
  - intros g Hg. vm_compute in Hg. injection Hg as <-. vm_compute. by eexists.
Defined.

(** Only the first [g] element counts: one without [jid] after it does not
    stop the decoder, and one without [jid] before it does. *)
Example read_event_later_g_without_jid :
  IncomingMessageReadEvent.group_jid <$>
    IncomingMessageReadEvent.init base_returns
      (tag "message" [("from", "alice_k3x@talk.kik.com")]
         [ element "receipt" [] [element "msgid" [("id", "m-1")] []];
           element "g" [("jid", "1100221067977_g@groups.kik.com")] [];
           element "g" [] [] ])
  = Returned (Some (lit "1100221067977_g@groups.kik.com")) ∧
  IncomingMessageReadEvent.init base_returns
    (tag "message" [("from", "alice_k3x@talk.kik.com")]
       [ element "receipt" [] [element "msgid" [("id", "m-1")] []];
         element "g" [] [];
         element "g" [("jid", "1100221067977_g@groups.kik.com")] [] ])
  = Raised (KeyError (lit "jid")).
Proof. split; vm_compute; reflexivity. Qed.

(** ** A read event and the group receipts of the same stanza *)

Lemma group_receipts_init_ids {Base} (XMPPResponse_init : Tag → outcome Base)
    (data : Tag) (ev : IncomingGroupReceiptsEvent.t Base) :
  IncomingGroupReceiptsEvent.init XMPPResponse_init data = Returned ev →
  ∃ receipt,
    find "receipt" data = Some receipt ∧
    Forall2 (λ msgid id, attrs msgid !! lit "id" = Some id)
      (findAll "msgid" receipt) (IncomingGroupReceiptsEvent.receipt_ids ev).
Proof.
  unfold IncomingGroupReceiptsEvent.init. intros H.
  bind_inv H. bind_inv H. bind_inv H. bind_inv H. bind_inv H. bind_inv H.
  bind_inv H. apply Returned_inj in H as <-. simpl.
  apply getattr_Returned in Ha3 as (receipt & Hreceipt & ->).
  exists receipt. split; [done|].
  apply comprehension_Returned in Ha4.
  eapply Forall2_impl; [done|]. intros msgid id. apply getitem_Returned.
Qed.

(** X7.  On a stanza that both decoders accept, the message identifier of
    the read event is the first of the identifiers of the group receipts
    event: the one reads the first [msgid] below [receipt], the other all of
    them. *)
Theorem read_event_is_first_group_receipt {Base}
    (XMPPResponse_init : Tag → outcome Base) (data : Tag)
    (read : IncomingMessageReadEvent.t Base)
    (receipts : IncomingGroupReceiptsEvent.t Base) :
  IncomingMessageReadEvent.init XMPPResponse_init data = Returned read →
  IncomingGroupReceiptsEvent.init XMPPResponse_init data = Returned receipts →
  head (IncomingGroupReceiptsEvent.receipt_ids receipts)
  = Some (IncomingMessageReadEvent.receipt_message_id read).
Proof.
  intros (base & receipt & msgid & id & from & _ & Hr & Hm & Hid & _ & Hg)%read_event_init
         (receipt' & Hr' & Hids)%group_receipts_init_ids.
  assert (receipt' = receipt) as -> by congruence.
  assert (IncomingMessageReadEvent.receipt_message_id read = id) as ->.
  { destruct (find "g" data); [destruct Hg as (? & _ & ->) | subst]; done. }
  unfold find in Hm.
  destruct Hids as [|msgid' id' ? ? Hid' _]; [done|].
  simpl in Hm. injection Hm as ->. simpl. congruence.
Qed.

(** A receipt for [m-2] and [m-1]: the read event has [m-2]. *)
Lemma read_event_is_first_group_receipt_witness :
  IncomingMessageReadEvent.receipt_message_id <$>
    IncomingMessageReadEvent.init base_returns read_event_stanza = Returned (lit "m-2") ∧
  IncomingGroupReceiptsEvent.receipt_ids <$>
    IncomingGroupReceiptsEvent.init base_returns read_event_stanza
  = Returned [lit "m-2"; lit "m-1"] ∧
  head [lit "m-2"; lit "m-1"] = Some (lit "m-2").
Proof.
  split; [vm_compute; reflexivity|]. split; [vm_compute; reflexivity|].
  apply (read_event_is_first_group_receipt base_returns read_event_stanza
           {| IncomingMessageReadEvent.base := ();
              IncomingMessageReadEvent.receipt_message_id := lit "m-2";
              IncomingMessageReadEvent.from_jid := lit "alice_k3x@talk.kik.com";
              IncomingMessageReadEvent.group_jid :=
                Some (lit "1100221067977_g@groups.kik.com") |}
           {| IncomingGroupReceiptsEvent.base := ();
              IncomingGroupReceiptsEvent.from_jid := lit "alice_k3x@talk.kik.com";
              IncomingGroupReceiptsEvent.to_jid := lit "bob@talk.kik.com";
              IncomingGroupReceiptsEvent.group_jid := lit "1100221067977_g@groups.kik.com";
              IncomingGroupReceiptsEvent.receipt_ids := [lit "m-2"; lit "m-1"];
              IncomingGroupReceiptsEvent.type := lit "read" |});
    vm_compute; reflexivity.
Defined.

(** Turns [returns] of a constructor into the conditions of its lookups. *)
Ltac returns_iff :=
  repeat setoid_rewrite returns_bind;
  repeat setoid_rewrite returns_Returned;
  repeat setoid_rewrite fmap_Returned;
  repeat setoid_rewrite is_true_Returned;
  repeat setoid_rewrite getitem_Returned;
  repeat setoid_rewrite subscript_Returned;
  repeat setoid_rewrite getattr_Returned;
  unfold returns, is_Some; naive_solver.

(** ** Typing notifications *)



(** ** Media messages without a receipt request *)



(** ** Images *)

(** X12.  An image message is decoded exactly when the first [request]
    element of the stanza has [d] and [r], the stanza has the attributes
    [from] and [to], and its first [g] element, if there is one, has [jid];
    a later [g] is not looked at, and neither a missing [file-url] nor a
    missing [status] or [g] makes it fail.  The group identifier is [None]
    exactly when there is no [g] element. *)
Theorem image_message_returns {Base} (XMPPResponse_init : Tag → outcome Base)
    (data : Tag) :
  (returns (IncomingImageMessage.init XMPPResponse_init data) ↔
   returns (XMPPResponse_init data) ∧
   (∃ request, find "request" data = Some request ∧
               is_Some (attrs request !! lit "d") ∧
               is_Some (attrs request !! lit "r")) ∧
   is_Some (attrs data !! lit "from") ∧ is_Some (attrs data !! lit "to") ∧
   (∀ g, find "g" data = Some g → is_Some (attrs g !! lit "jid"))) ∧
  (∀ ev, IncomingImageMessage.init XMPPResponse_init data = Returned ev →
     (IncomingImageMessage.group_jid ev = None ↔ find "g" data = None) ∧
     (IncomingImageMessage.image_url ev = None ↔ find "file-url" data = None)).
Proof.
  split.
  - unfold IncomingImageMessage.init.
    repeat setoid_rewrite returns_bind.
    setoid_rewrite optional_group_jid_cases.
    destruct (find "g" data) as [g|]; returns_iff.
  - intros ev H. unfold IncomingImageMessage.init in H.
    bind_inv H. bind_inv H. bind_inv H. bind_inv H. bind_inv H. bind_inv H.
    apply Returned_inj in H as <-. simpl.
    apply optional_group_jid in Ha4.
    split.
    + destruct (find "g" data); [by destruct Ha4 as (? & _ & ->) | by subst].
    + by destruct (find "file-url" data).
Qed.

(** Only the first [g] element counts. *)
Example image_later_g_without_jid :
  IncomingImageMessage.group_jid <$>
    IncomingImageMessage.init base_returns
      (tag "message" [("from", "alice_k3x@talk.kik.com"); ("to", "bob@talk.kik.com")]
         [ element "request" [("d", "true"); ("r", "true")] [];
           element "g" [("jid", "1100221067977_g@groups.kik.com")] [];
           element "g" [] [] ])
  = Returned (Some (lit "1100221067977_g@groups.kik.com")).
Proof. vm_compute. reflexivity. Qed.

(** ** Videos *)

(** X13.  A video message is decoded exactly when the stanza has a [request]
    element with [d] and [r], a [file-url] and a [file-size] element, the
    attributes [from] and [to], and a [g] element with [jid]:
    [file-content-type] and [duration] are optional, the other two are
    not. *)
Theorem video_message_returns {Base} (XMPPResponse_init : Tag → outcome Base)
    (data : Tag) :
  returns (IncomingVideoMessage.init XMPPResponse_init data) ↔
  returns (XMPPResponse_init data) ∧
  (∃ request, find "request" data = Some request ∧
              is_Some (attrs request !! lit "d") ∧
              is_Some (attrs request !! lit "r")) ∧
  is_Some (find "file-url" data) ∧ is_Some (find "file-size" data) ∧
  is_Some (attrs data !! lit "from") ∧ is_Some (attrs data !! lit "to") ∧
  (∃ g, find "g" data = Some g ∧ is_Some (attrs g !! lit "jid")).
Proof. unfold IncomingVideoMessage.init. returns_iff. Qed.

(** ** Cards *)

(** X14.  A card message is decoded exactly when the stanza has a [request]
    element with [d] and [r], the attributes [from] and [to], and a [g]
    element with [jid]: none of [app-name], [card-icon], [layout], [title],
    [text], [allow-forward], [icon] and [uri] is needed. *)
Theorem card_message_returns {Base} (XMPPResponse_init : Tag → outcome Base)
    (data : Tag) :
  returns (IncomingCardMessage.init XMPPResponse_init data) ↔
  returns (XMPPResponse_init data) ∧
  (∃ request, find "request" data = Some request ∧
              is_Some (attrs request !! lit "d") ∧
              is_Some (attrs request !! lit "r")) ∧
  is_Some (attrs data !! lit "from") ∧ is_Some (attrs data !! lit "to") ∧
  (∃ g, find "g" data = Some g ∧ is_Some (attrs g !! lit "jid")).
Proof. unfold IncomingCardMessage.init. returns_iff. Qed.

(** ** Friend attributions and status responses *)

(** X19.  A friend attribution is decoded exactly when the stanza has a
    [friend-attribution] element with, below it, a [context] element that
    has [type], [referrer] and [reply], and a [body] element. *)
Theorem friend_attribution_returns {Base} (XMPPResponse_init : Tag → outcome Base)
    (data : Tag) :
  returns (IncomingFriendAttribution.init XMPPResponse_init data) ↔
  returns (XMPPResponse_init data) ∧
  ∃ friend_attribution context,
    find "friend-attribution" data = Some friend_attribution ∧
    find "context" friend_attribution = Some context ∧
    is_Some (attrs context !! lit "type") ∧
    is_Some (attrs context !! lit "referrer") ∧
    is_Some (attrs context !! lit "reply") ∧
    is_Some (find "body" friend_attribution).
Proof. unfold IncomingFriendAttribution.init. returns_iff. Qed.

(** X20.  A status response is decoded exactly when the stanza has the
    attribute [from] and, at any depth, a [status] element with
    [special-visibility] and [jid]. *)
Theorem status_response_returns {Base} (XMPPResponse_init : Tag → outcome Base)
    (data : Tag) :
  returns (IncomingStatusResponse.init XMPPResponse_init data) ↔
  returns (XMPPResponse_init data) ∧ is_Some (attrs data !! lit "from") ∧
  ∃ status, find "status" data = Some status ∧
            is_Some (attrs status !! lit "special-visibility") ∧
            is_Some (attrs status !! lit "jid").
Proof. unfold IncomingStatusResponse.init. returns_iff. Qed.

(** ** Group status and system messages *)

Lemma request_flag_Returned (a : string) (data : Tag) (b : bool) :
  IncomingChatMessage.request_flag a data = Returned b ↔
  (find "request" data = None ∧ b = false) ∨
  (∃ request v, find "request" data = Some request ∧
                attrs request !! lit a = Some v ∧ b = bool_decide (v = lit "true")).
Proof.
  unfold IncomingChatMessage.request_flag.
  destruct (find "request" data) as [request|].
  - rewrite is_true_Returned. naive_solver.
  - split; [intros <-%Returned_inj; by left | by intros [[_ ->]|(? & ? & [=] & _)]].
Qed.

(** [x[key] if x and key in x.attrs else None] never raises. *)
Lemma attribute_if_present_Returned (x : option Tag) (key : string) :
  attribute_if_present x key
  = Returned match x with
             | Some t => attrs t !! lit key
             | None => None
             end.
Proof.
  destruct x as [t|]; [|done]. unfold attribute_if_present, getitem.
  destruct (attrs t !! lit key) as [v|] eqn:Hv.
  - rewrite bool_decide_eq_true_2 by (by eexists). done.
  - rewrite bool_decide_eq_false_2; [done|]. by intros [? ?].
Qed.

Lemma group_of_Returned {G} (Group_init : Tag → outcome G) (x : option Tag)
    (o : option G) :
  group_of Group_init x = Returned o ↔
  (o = None ∧ ∀ g, x = Some g → contents g = []) ∨
  (∃ g v, x = Some g ∧ contents g ≠ [] ∧ Group_init g = Returned v ∧ o = Some v).
Proof.
  destruct x as [g|]; simpl.
  - destruct (contents g) as [|c cs] eqn:Hc; simpl.
    + split.
      * intros <-%Returned_inj. left. split; [done|]. by intros ? [= <-].
      * intros [[-> _]|(? & ? & [= <-] & Hne & _)]; [done|]. congruence.
    + rewrite fmap_Returned. split.
      * intros (v & Hv & ->). right. exists g, v. by rewrite Hc.
      * intros [[_ H]|(? & v & [= <-] & _ & Hv & ->)]; [|by exists v].
        specialize (H g eq_refl). congruence.
  - split.
    + intros <-%Returned_inj. left. split; [done|]. by intros ? [=].
    + by intros [[-> _]|(? & ? & [=] & _)].
Qed.

Lemma returns_group_of {G} (Group_init : Tag → outcome G) (x : option Tag) :
  returns (group_of Group_init x) ↔
  ∀ g, x = Some g → contents g ≠ [] → returns (Group_init g).
Proof.
  destruct x as [g|]; simpl.
  - destruct (contents g) as [|c cs] eqn:Hc; simpl.
    + split; [by intros _ ? [= <-] ? | intros _; by eexists].
    + split.
      * intros [o (v & Hv & _)%fmap_Returned] ? [= <-] _. by exists v.
      * intros H. destruct (H g eq_refl) as [v Hv]; [by rewrite Hc|].
        rewrite Hv. by eexists.
  - split; [by intros _ ? [=] | intros _; by eexists].
Qed.

(** What the two group notifications need. *)
Lemma group_notification_returns {Base G A} (XMPPResponse_init : Tag → outcome Base)
    (Group_init : Tag → outcome G) (data : Tag)
    (build : Base → bool → bool → list N → list N → option G → A) :
  returns (base ← XMPPResponse_init data;
           d ← IncomingChatMessage.request_flag "d" data;
           r ← IncomingChatMessage.request_flag "r" data;
           from ← getitem data "from";
           to ← getitem data "to";
           group ← group_of Group_init (find_child "g" data);
           mret (build base d r from to group)) ↔
  returns (XMPPResponse_init data) ∧
  (∀ request, find "request" data = Some request →
              is_Some (attrs request !! lit "d") ∧ is_Some (attrs request !! lit "r")) ∧
  is_Some (attrs data !! lit "from") ∧ is_Some (attrs data !! lit "to") ∧
  (∀ g, find_child "g" data = Some g → contents g ≠ [] → returns (Group_init g)).
Proof.
  rewrite <- returns_group_of, <- !returns_getitem.
  assert ((∀ request, find "request" data = Some request →
             is_Some (attrs request !! lit "d") ∧ is_Some (attrs request !! lit "r")) ↔
          returns (IncomingChatMessage.request_flag "d" data) ∧
          returns (IncomingChatMessage.request_flag "r" data)) as ->.
  { rewrite !returns_request_flag. split.
    - intros H. split; intros request Hr; by apply H.
    - intros [Hd Hr] request H. split; [by apply Hd | by apply Hr]. }
  split.
  - intros [ev H]. bind_inv H. bind_inv H. bind_inv H. bind_inv H. bind_inv H. bind_inv H.
    repeat split; by eexists.
  - intros ([? ->] & ([? ->] & [? ->]) & [? ->] & [? ->] & [? ->]). by eexists.
Qed.

(** X9.  A group status notification is decoded whatever its [status] and
    [g] children are: it needs [from] and [to] and, when there is a
    [request] element, its [d] and [r]; the constructor of [Group] runs only
    on a [g] child that has contents.  [status] and [status_jid] come from a
    [status] child, not from a deeper one, and are [None] without it; an
    absent [jid] gives [None]; [group] is [None] exactly when the stanza has
    no [g] child or an empty one. *)
Theorem group_status_returns {Base G} (XMPPResponse_init : Tag → outcome Base)
    (Group_init : Tag → outcome G) (data : Tag) :
  (returns (IncomingGroupStatus.init XMPPResponse_init Group_init data) ↔
   returns (XMPPResponse_init data) ∧
   (∀ request, find "request" data = Some request →
               is_Some (attrs request !! lit "d") ∧ is_Some (attrs request !! lit "r")) ∧
   is_Some (attrs data !! lit "from") ∧ is_Some (attrs data !! lit "to") ∧
   (∀ g, find_child "g" data = Some g → contents g ≠ [] → returns (Group_init g))) ∧
  (∀ ev, IncomingGroupStatus.init XMPPResponse_init Group_init data = Returned ev →
     IncomingGroupStatus.status ev = get_text <$> find_child "status" data ∧
     IncomingGroupStatus.status_jid ev
       = match find_child "status" data with
         | Some status => attrs status !! lit "jid"
         | None => None
         end ∧
     (IncomingGroupStatus.group ev = None ↔
      ∀ g, find_child "g" data = Some g → contents g = [])).
Proof.
  split.
  - unfold IncomingGroupStatus.init.
    rewrite <- (group_notification_returns XMPPResponse_init Group_init data
                  (λ _ _ _ _ _ _, ())).
    rewrite attribute_if_present_Returned.
    destruct (XMPPResponse_init data); cbn [mbind outcome_bind]; [|split; by intros [? ?]].
    destruct (IncomingChatMessage.request_flag "d" data);
      cbn [mbind outcome_bind]; [|split; by intros [? ?]].
    destruct (IncomingChatMessage.request_flag "r" data);
      cbn [mbind outcome_bind]; [|split; by intros [? ?]].
    destruct (getitem data "from"); cbn [mbind outcome_bind]; [|split; by intros [? ?]].
    destruct (getitem data "to"); cbn [mbind outcome_bind]; [|split; by intros [? ?]].
    destruct (group_of Group_init (find_child "g" data));
      cbn [mbind outcome_bind]; [|split; by intros [? ?]].
    split; intros _; by eexists.
  - intros ev H. unfold IncomingGroupStatus.init in H.
    bind_inv H. bind_inv H. bind_inv H. bind_inv H. bind_inv H. bind_inv H. bind_inv H.
    apply Returned_inj in H as <-. simpl.
    rewrite attribute_if_present_Returned in Ha4. apply Returned_inj in Ha4 as <-.
    split; [done|]. split; [done|].
    apply group_of_Returned in Ha5 as [[-> Hg]|(g & v & Hg & Hne & _ & ->)].
    + done.
    + split; [done|]. intros H. by specialize (H g Hg).
Qed.

(** A status notification with an empty [g]: decoded, without a group. *)
Lemma group_status_returns_witness :
  IncomingGroupStatus.init base_returns group_returns group_status_stanza
  = Returned {| IncomingGroupStatus.base := ();
                IncomingGroupStatus.request_delivered_receipt := false;
                IncomingGroupStatus.requets_read_receipt := false;
                IncomingGroupStatus.group_jid := lit "1100221067977_g@groups.kik.com";
                IncomingGroupStatus.to_jid := lit "bob@talk.kik.com";
                IncomingGroupStatus.status := Some (lit "alice has joined the chat");
                IncomingGroupStatus.status_jid := Some (lit "alice_k3x@talk.kik.com");
                IncomingGroupStatus.group := None |} ∧
  returns (IncomingGroupStatus.init base_returns group_returns group_status_stanza).
Proof.
  split; [vm_compute; reflexivity|].
  apply (proj1 (group_status_returns base_returns group_returns group_status_stanza)).
  split; [by eexists|]. split; [|split; [|split]].
  - intros request H. vm_compute in H. discriminate H.
  - vm_compute. by eexists.
  - vm_compute. by eexists.
  - intros g _ _. by eexists.
Defined.

(** X10.  A group system message is decoded under the same conditions as a
    group status: [sysmsg] and [sysmsg_xmlns] come from a [sysmsg] child and
    are [None] without it, an absent [xmlns] gives [None], and [group] is
    [None] exactly when the stanza has no [g] child or an empty one. *)
Theorem group_sysmsg_returns {Base G} (XMPPResponse_init : Tag → outcome Base)
    (Group_init : Tag → outcome G) (data : Tag) :
  (returns (IncomingGroupSysmsg.init XMPPResponse_init Group_init data) ↔
   returns (IncomingGroupStatus.init XMPPResponse_init Group_init data)) ∧
  (∀ ev, IncomingGroupSysmsg.init XMPPResponse_init Group_init data = Returned ev →
     IncomingGroupSysmsg.sysmsg ev = get_text <$> find_child "sysmsg" data ∧
     IncomingGroupSysmsg.sysmsg_xmlns ev
       = match find_child "sysmsg" data with
         | Some sysmsg => attrs sysmsg !! lit "xmlns"
         | None => None
         end ∧
     (IncomingGroupSysmsg.group ev = None ↔
      ∀ g, find_child "g" data = Some g → contents g = [])).
Proof.
  split.
  - unfold IncomingGroupSysmsg.init, IncomingGroupStatus.init.
    rewrite !attribute_if_present_Returned.
    destruct (XMPPResponse_init data); cbn [mbind outcome_bind]; [|split; by intros [? ?]].
    destruct (IncomingChatMessage.request_flag "d" data);
      cbn [mbind outcome_bind]; [|split; by intros [? ?]].
    destruct (IncomingChatMessage.request_flag "r" data);
      cbn [mbind outcome_bind]; [|split; by intros [? ?]].
    destruct (getitem data "from"); cbn [mbind outcome_bind]; [|split; by intros [? ?]].
    destruct (getitem data "to"); cbn [mbind outcome_bind]; [|split; by intros [? ?]].
    destruct (group_of Group_init (find_child "g" data));
      cbn [mbind outcome_bind]; [|split; by intros [? ?]].
    split; intros _; by eexists.
  - intros ev H. unfold IncomingGroupSysmsg.init in H.
    bind_inv H. bind_inv H. bind_inv H. bind_inv H. bind_inv H. bind_inv H. bind_inv H.
    apply Returned_inj in H as <-. simpl.
    rewrite attribute_if_present_Returned in Ha4. apply Returned_inj in Ha4 as <-.
    split; [done|]. split; [done|].
    apply group_of_Returned in Ha5 as [[-> Hg]|(g & v & Hg & Hne & _ & ->)].
    + done.
    + split; [done|]. intros H. by specialize (H g Hg).
Qed.

(** ** The alternatives of gifs and stickers *)

Lemma gif_uris_Returned (l : list (list N + Tag)) (uris : list IncomingGifMessage.Uri.t) :
  comprehension IncomingGifMessage.Uri.init l = Returned uris ↔
  ∃ tags, l = inr <$> tags ∧
          Forall2 (λ t u,
                     attrs t !! lit "file-content-type"
                       = Some (IncomingGifMessage.Uri.file_content_type u) ∧
                     attrs t !! lit "type" = Some (IncomingGifMessage.Uri.type u) ∧
                     IncomingGifMessage.Uri.url u = get_text t) tags uris.
Proof.
  rewrite comprehension_Returned. split.
  - induction 1 as [|x u l us Hx _ (tags & -> & IH)]; [by exists []|].
    destruct x as [s|t]; [done|]. simpl in Hx.
    bind_inv Hx. bind_inv Hx. apply Returned_inj in Hx as <-.
    apply getitem_Returned in Ha, Ha0.
    exists (t :: tags). split; [done|]. by constructor.
  - intros (tags & -> & H).
    induction H as [|t u tags us (Hc & Ht & Hu) _ IH]; [constructor|].
    rewrite fmap_cons. constructor; [|done]. simpl.
    apply getitem_Returned in Hc, Ht. rewrite Hc, Ht. simpl.
    destruct u; simpl in *. by subst.
Qed.

Lemma sticker_uris_Returned (l : list (list N + Tag))
    (uris : list IncomingGroupSticker.Uri.t) :
  comprehension IncomingGroupSticker.Uri.init l = Returned uris ↔
  ∃ tags, l = inr <$> tags ∧
          Forall2 (λ t u,
                     attrs t !! lit "platform"
                       = Some (IncomingGroupSticker.Uri.platform u) ∧
                     IncomingGroupSticker.Uri.url u = get_text t) tags uris.
Proof.
  rewrite comprehension_Returned. split.
  - induction 1 as [|x u l us Hx _ (tags & -> & IH)]; [by exists []|].
    destruct x as [s|t]; [done|]. simpl in Hx.
    bind_inv Hx. apply Returned_inj in Hx as <-.
    apply getitem_Returned in Ha.
    exists (t :: tags). split; [done|]. by constructor.
  - intros (tags & -> & H).
    induction H as [|t u tags us (Hp & Hu) _ IH]; [constructor|].
    rewrite fmap_cons. constructor; [|done]. simpl.
    apply getitem_Returned in Hp. rewrite Hp. simpl.
    destruct u; simpl in *. by subst.
Qed.

(** X15.  A decoded gif has one alternative for each child of the [uris]
    element below [content], in document order, with the child's
    [file-content-type], [type] and text.  The children are iterated as they
    are: a text node among them, such as white space between the [uri]
    elements, or a child without one of the two attributes makes the
    constructor raise. *)
Theorem gif_message_uris {Base} (XMPPResponse_init : Tag → outcome Base)
    (data : Tag) :
  (returns (IncomingGifMessage.init XMPPResponse_init data) ↔
   returns (XMPPResponse_init data) ∧
   (∃ request, find "request" data = Some request ∧
               is_Some (attrs request !! lit "d") ∧
               is_Some (attrs request !! lit "r")) ∧
   is_Some (attrs data !! lit "from") ∧ is_Some (attrs data !! lit "to") ∧
   (∃ g, find "g" data = Some g ∧ is_Some (attrs g !! lit "jid")) ∧
   ∃ content uris tags,
     find "content" data = Some content ∧ find "uris" content = Some uris ∧
     contents uris = inr <$> tags ∧
     Forall (λ t, is_Some (attrs t !! lit "file-content-type") ∧
                  is_Some (attrs t !! lit "type")) tags) ∧
  (∀ ev, IncomingGifMessage.init XMPPResponse_init data = Returned ev →
     ∃ content uris tags,
       find "content" data = Some content ∧ find "uris" content = Some uris ∧
       contents uris = inr <$> tags ∧
       Forall2 (λ t u,
                  attrs t !! lit "file-content-type"
                    = Some (IncomingGifMessage.Uri.file_content_type u) ∧
                  attrs t !! lit "type" = Some (IncomingGifMessage.Uri.type u) ∧
                  IncomingGifMessage.Uri.url u = get_text t)
         tags (IncomingGifMessage.uris ev)).
Proof.
  assert (∀ ev, IncomingGifMessage.init XMPPResponse_init data = Returned ev →
     ∃ content uris tags,
       find "content" data = Some content ∧ find "uris" content = Some uris ∧
       contents uris = inr <$> tags ∧
       Forall2 (λ t u,
                  attrs t !! lit "file-content-type"
                    = Some (IncomingGifMessage.Uri.file_content_type u) ∧
                  attrs t !! lit "type" = Some (IncomingGifMessage.Uri.type u) ∧
                  IncomingGifMessage.Uri.url u = get_text t)
         tags (IncomingGifMessage.uris ev)) as Huris.
  { intros ev H. unfold IncomingGifMessage.init in H.
    bind_inv H. bind_inv H. bind_inv H. bind_inv H. bind_inv H. bind_inv H.
    bind_inv H. bind_inv H. apply Returned_inj in H as <-. simpl.
    apply getattr_Returned in Ha5 as (content & Hcontent & ->).
    destruct (find "uris" content) as [uris|] eqn:Huris; [|done].
    apply gif_uris_Returned in Ha6 as (tags & Htags & H).
    by exists content, uris, tags. }
  split; [|done]. split.
  - intros [ev H]. destruct (Huris ev H) as (content & uris & tags & Hc & Hu & Ht & Hall).
    unfold IncomingGifMessage.init in H.
    bind_inv H. bind_inv H. bind_inv H. bind_inv H. bind_inv H. bind_inv H.
    split; [by eexists|].
    apply is_true_Returned in Ha0 as (request & ? & Hr & ? & _).
    apply is_true_Returned in Ha1 as (request' & ? & Hr' & ? & _).
    assert (request' = request) as -> by congruence.
    split; [by exists request|].
    apply getitem_Returned in Ha2, Ha3.
    split; [by eexists|]. split; [by eexists|].
    apply subscript_Returned in Ha4 as (g & ? & ?).
    split; [by exists g|]. exists content, uris, tags. repeat (split; [done|]).
    clear -Hall. induction Hall as [|? ? ? ? (? & ? & _)]; constructor; [|done].
    split; by eexists.
  - intros ([base Hb] & (request & Hr & [d Hd] & [r Hr']) & [from Hf%getitem_Returned] &
            [to Ht%getitem_Returned] & (g & Hg & [jid Hjid%getitem_Returned]) &
            content & uris & tags & Hc & Hu & Htags & Hall).
    unfold IncomingGifMessage.init.
    assert (∃ us, comprehension IncomingGifMessage.Uri.init (contents uris) = Returned us)
      as [us Hus].
    { rewrite Htags. clear -Hall.
      induction Hall as [|t tags [[c Hc%getitem_Returned] [ty Hty%getitem_Returned]] _ [us IH]];
        [by exists []|].
      eexists. rewrite fmap_cons. simpl. rewrite Hc, Hty. simpl. by rewrite IH. }
    assert (is_true (Some request) "d" = Returned (bool_decide (d = lit "true"))) as Hd'
      by (apply is_true_Returned; by exists request, d).
    assert (is_true (Some request) "r" = Returned (bool_decide (r = lit "true"))) as Hr''
      by (apply is_true_Returned; by exists request, r).
    rewrite Hb, Hr, Hg, Hc. cbn [mbind outcome_bind getattr subscript].
    rewrite Hd'. cbn [mbind outcome_bind]. rewrite Hr''. cbn [mbind outcome_bind].
    rewrite Hf. cbn [mbind outcome_bind]. rewrite Ht. cbn [mbind outcome_bind].
    rewrite Hjid. cbn [mbind outcome_bind]. rewrite Hu, Hus. by eexists.
Qed.

(** A gif with two alternatives: both are decoded, in their order. *)
Lemma gif_message_uris_witness :
  IncomingGifMessage.uris <$> IncomingGifMessage.init base_returns gif_stanza
  = Returned [ {| IncomingGifMessage.Uri.file_content_type := lit "video/mp4";
                  IncomingGifMessage.Uri.type := lit "video";
                  IncomingGifMessage.Uri.url := lit "https://example.org/a.mp4" |};
               {| IncomingGifMessage.Uri.file_content_type := lit "video/webm";
                  IncomingGifMessage.Uri.type := lit "video";
                  IncomingGifMessage.Uri.url := lit "https://example.org/a.webm" |} ] ∧
  ∃ ev content uris tags,
    IncomingGifMessage.init base_returns gif_stanza = Returned ev ∧
    find "content" gif_stanza = Some content ∧ find "uris" content = Some uris ∧
    contents uris = inr <$> tags.
Proof.
  split; [vm_compute; reflexivity|].
  destruct (IncomingGifMessage.init base_returns gif_stanza) as [ev|] eqn:H;
    [|vm_compute in H; discriminate H].
  destruct (proj2 (gif_message_uris base_returns gif_stanza) ev H)
    as (content & uris & tags & Hc & Hu & Ht & _).
  by exists ev, content, uris, tags.
Defined.

(** White space between the [uri] elements is a child as well. *)
Example gif_message_text_between_uris :
  IncomingGifMessage.init base_returns
    (tag "message" [("from", "a"); ("to", "b")]
       [ element "request" [("d", "true"); ("r", "true")] [];
         element "g" [("jid", "1100221067977_g@groups.kik.com")] [];
         element "content" []
           [ element "uris" []
               [ element "uri" [("file-content-type", "video/mp4"); ("type", "video")] [];
                 text_node " ";
                 element "uri" [("file-content-type", "video/webm"); ("type", "video")] [] ] ] ])
  = Raised (TypeError "string indices must be integers").
Proof. vm_compute. reflexivity. Qed.

(** X16.  A decoded sticker has one alternative for each child of the [uris]
    element below [content], in document order, with the child's [platform]
    and text, and [png_preview] is the text of the [png-preview] element
    below [images], [None] without one.  An [images] element is needed even
    then, and so is a [platform] on every child of [uris]. *)
Theorem sticker_uris_and_preview {Base} (XMPPResponse_init : Tag → outcome Base)
    (data : Tag) (ev : IncomingGroupSticker.t Base) :
  IncomingGroupSticker.init XMPPResponse_init data = Returned ev →
  ∃ content images uris tags,
    find "content" data = Some content ∧
    find "images" content = Some images ∧
    IncomingGroupSticker.png_preview ev = get_text <$> find "png-preview" images ∧
    find "uris" content = Some uris ∧ contents uris = inr <$> tags ∧
    Forall2 (λ t u,
               attrs t !! lit "platform" = Some (IncomingGroupSticker.Uri.platform u) ∧
               IncomingGroupSticker.Uri.url u = get_text t)
      tags (IncomingGroupSticker.uris ev).
Proof.
  unfold IncomingGroupSticker.init. intros H.
  bind_inv H. destruct (find "content" data) as [content|]; [|by bind_inv H].
  cbn [getattr mbind outcome_bind] in H.
  bind_inv H. bind_inv H. bind_inv H.
  cbn [getattr mbind outcome_bind] in H.
  destruct (find "images" content) as [images|] eqn:Himages; [|done].
  cbn [getattr mbind outcome_bind] in H.
  destruct (find "uris" content) as [uris|] eqn:Huris; [|done].
  bind_inv H. apply Returned_inj in H as <-. simpl.
  apply sticker_uris_Returned in Ha3 as (tags & Htags & H).
  by exists content, images, uris, tags.
Qed.

(** The sticker with one alternative and a preview. *)
Lemma sticker_uris_and_preview_witness :
  ∃ ev content images uris tags,
    IncomingGroupSticker.init base_returns sticker = Returned ev ∧
    find "content" sticker = Some content ∧
    find "images" content = Some images ∧
    IncomingGroupSticker.png_preview ev = get_text <$> find "png-preview" images ∧
    find "uris" content = Some uris ∧ contents uris = inr <$> tags.
Proof.
  destruct (IncomingGroupSticker.init base_returns sticker) as [ev|] eqn:H;
    [|vm_compute in H; discriminate H].
  destruct (sticker_uris_and_preview base_returns sticker ev H)
    as (content & images & uris & tags & Hc & Hi & Hp & Hu & Ht & _).
  by exists ev, content, images, uris, tags.
Defined.

(** ** Chat messages *)

(** X17.  A chat message is decoded exactly when the stanza has [from] and
    [to], its first [request] element, if there is one, has [d] and [r],
    and its first [is-typing] element, if there is one, has [val]; a later
    [request] or [is-typing] is not looked at.  [body] is the text of the
    first [body] child of the stanza and ignores a [body] deeper down;
    [status] and [preview] are the text of the first such element at any
    depth, and [is_typing] is [None] exactly when the stanza has no
    [is-typing] element. *)
Theorem chat_message_returns {Base} (XMPPResponse_init : Tag → outcome Base)
    (data : Tag) :
  (returns (IncomingChatMessage.init XMPPResponse_init data) ↔
   returns (XMPPResponse_init data) ∧
   (∀ request, find "request" data = Some request →
               is_Some (attrs request !! lit "d") ∧ is_Some (attrs request !! lit "r")) ∧
   is_Some (attrs data !! lit "from") ∧ is_Some (attrs data !! lit "to") ∧
   (∀ t, find "is-typing" data = Some t → is_Some (attrs t !! lit "val"))) ∧
  (∀ m, IncomingChatMessage.init XMPPResponse_init data = Returned m →
     IncomingChatMessage.body m = get_text <$> find_child "body" data ∧
     IncomingChatMessage.status m = get_text <$> find "status" data ∧
     IncomingChatMessage.preview m = get_text <$> find "preview" data ∧
     (IncomingChatMessage.is_typing m = None ↔ find "is-typing" data = None)).
Proof.
  split.
  - unfold IncomingChatMessage.init.
    assert (returns (if find "is-typing" data is Some _
                     then Some <$> is_true (find "is-typing" data) "val"
                     else Returned None) ↔
            ∀ t, find "is-typing" data = Some t → is_Some (attrs t !! lit "val")) as <-.
    { destruct (find "is-typing" data) as [t|].
      - split.
        + intros [o (b & (t' & v & [= <-] & Hv & _)%is_true_Returned & _)%fmap_Returned] ? [= <-].
          by exists v.
        + intros H. destruct (H t eq_refl) as [v Hv]. eexists. apply fmap_Returned.
          eexists. split; [|done]. apply is_true_Returned. by exists t, v.
      - split; [by intros _ ? [=] | intros _; by eexists]. }
    rewrite <- !returns_getitem.
    assert ((∀ request, find "request" data = Some request →
               is_Some (attrs request !! lit "d") ∧ is_Some (attrs request !! lit "r")) ↔
            returns (IncomingChatMessage.request_flag "d" data) ∧
            returns (IncomingChatMessage.request_flag "r" data)) as ->.
    { rewrite !returns_request_flag. split.
      - intros H. split; intros request Hr; by apply H.
      - intros [Hd Hr] request H. split; [by apply Hd | by apply Hr]. }
    split.
    + intros [ev H]. bind_inv H. bind_inv H. bind_inv H. bind_inv H. bind_inv H. bind_inv H.
      repeat split; by eexists.
    + intros ([? ->] & ([? ->] & [? ->]) & [? ->] & [? ->] & [? ->]). by eexists.
  - intros m H. unfold IncomingChatMessage.init in H.
    bind_inv H. bind_inv H. bind_inv H. bind_inv H. bind_inv H. bind_inv H.
    apply Returned_inj in H as <-. simpl. repeat (split; [done|]).
    destruct (find "is-typing" data); [|by apply Returned_inj in Ha4 as <-].
    apply fmap_Returned in Ha4 as (? & _ & ->). done.
Qed.

(** Only the first [request] element counts: one without [d] after it does
    not stop the decoder, and one without [d] before it does. *)
Example chat_message_later_request_without_d :
  IncomingChatMessage.request_delivered_receipt <$>
    IncomingChatMessage.init base_returns
      (tag "message" [("from", "alice_k3x@talk.kik.com"); ("to", "bob@talk.kik.com")]
         [ element "request" [("d", "true"); ("r", "true")] [];
           element "request" [("r", "true")] [] ])
  = Returned true ∧
  IncomingChatMessage.init base_returns
    (tag "message" [("from", "alice_k3x@talk.kik.com"); ("to", "bob@talk.kik.com")]
       [ element "request" [("r", "true")] [];
         element "request" [("d", "true"); ("r", "true")] [] ])
  = Raised (KeyError (lit "d")).
Proof. split; vm_compute; reflexivity. Qed.

(** A [body] inside [content] is not the body of the message. *)
Example chat_message_nested_body :
  IncomingChatMessage.body <$>
    IncomingChatMessage.init base_returns
      (tag "message" [("from", "a"); ("to", "b")]
         [element "content" [] [element "body" [] [text_node "inner"]]])
  = Returned None.
Proof. vm_compute. reflexivity. Qed.

(** X18.  A group chat message is decoded exactly when the chat message is
    and the stanza has a [g] child with [jid]; the group identifier is the
    [jid] of the first [g] child, and the chat-message fields are those of
    the chat-message decoder. *)
Theorem group_chat_message_returns {Base} (XMPPResponse_init : Tag → outcome Base)
    (data : Tag) :
  (returns (IncomingGroupChatMessage.init XMPPResponse_init data) ↔
   returns (IncomingChatMessage.init XMPPResponse_init data) ∧
   ∃ g, find_child "g" data = Some g ∧ is_Some (attrs g !! lit "jid")) ∧
  (∀ ev, IncomingGroupChatMessage.init XMPPResponse_init data = Returned ev →
     IncomingChatMessage.init XMPPResponse_init data
       = Returned (IncomingGroupChatMessage.chat ev) ∧
     ∃ g, find_child "g" data = Some g ∧
          attrs g !! lit "jid" = Some (IncomingGroupChatMessage.group_jid ev)).
Proof.
  unfold IncomingGroupChatMessage.init. split.
  - split.
    + intros [ev H]. bind_inv H. bind_inv H.
      split; [by eexists|]. apply subscript_Returned in Ha0 as (g & ? & ?).
      exists g. split; [done | by eexists].
    + intros ([chat ->] & g & -> & [jid Hjid%getitem_Returned]).
      cbn [mbind outcome_bind subscript]. rewrite Hjid. by eexists.
  - intros ev H. bind_inv H. bind_inv H. apply Returned_inj in H as <-. simpl.
    split; [done|]. by apply subscript_Returned in Ha0.
Qed.

(** * The sticker decoder and its table *)

Lemma parse_items_Returned_shape (m m' : gmap (option (list N)) (list N))
    (items : list Tag) :
  IncomingGroupSticker.parse_items m items = Returned m' →
  Forall (λ item, is_Some (item_key item) ∧ is_Some (item_val item)) items.
Proof.
  revert m. induction items as [|item items IH]; intros m H; simpl in H; [constructor|].
  bind_inv H. apply parse_item_Returned in Ha as (k & v & Hk & Hv & ->).
  constructor; [split; by eexists | by eapply IH].
Qed.

(** C7.  A sticker is decoded by building the table of its extras and
    reading the four named fields out of it, [None] for a key that is not
    there: with the table [sticker_pack_id = abc], [sticker_id = 7] the
    event has these two and neither [sticker_url] nor [sticker_source].
    Whether the decoder returns depends on the shape of the stanza only,
    never on the keys: every [item] needs a [key] and a [val] element, and
    the stanza needs [from], a [g] with [jid], [content] with [extras],
    [images] and [uris], and a [platform] on every child of [uris].  The
    table is built whatever the keys are, and every key of an item is in
    it. *)
Theorem sticker_fields_from_extras_table {Base}
    (XMPPResponse_init : Tag → outcome Base) (data : Tag) :
  (returns (IncomingGroupSticker.init XMPPResponse_init data) ↔
   returns (XMPPResponse_init data) ∧
   is_Some (attrs data !! lit "from") ∧
   (∃ g, find "g" data = Some g ∧ is_Some (attrs g !! lit "jid")) ∧
   ∃ content extras images uris tags,
     find "content" data = Some content ∧
     find "extras" content = Some extras ∧
     Forall (λ item, is_Some (item_key item) ∧ is_Some (item_val item))
       (findAll "item" extras) ∧
     find "images" content = Some images ∧
     find "uris" content = Some uris ∧ contents uris = inr <$> tags ∧
     Forall (λ t, is_Some (attrs t !! lit "platform")) tags) ∧
  (∀ ev, IncomingGroupSticker.init XMPPResponse_init data = Returned ev →
     ∃ content extras_map,
       find "content" data = Some content ∧
       IncomingGroupSticker.parse_extras (find "extras" content) = Returned extras_map ∧
       (∀ extras item k,
          find "extras" content = Some extras →
          item ∈ findAll "item" extras → item_key item = Some k →
          is_Some (extras_map !! k)) ∧
       IncomingGroupSticker.sticker_pack_id ev = extras_map !! Some (lit "sticker_pack_id") ∧
       IncomingGroupSticker.sticker_url ev = extras_map !! Some (lit "sticker_url") ∧
       IncomingGroupSticker.sticker_id ev = extras_map !! Some (lit "sticker_id") ∧
       IncomingGroupSticker.sticker_source ev = extras_map !! Some (lit "sticker_source") ∧
       (extras_map = {[ Some (lit "sticker_pack_id") := lit "abc";
                        Some (lit "sticker_id") := lit "7" ]} →
        IncomingGroupSticker.sticker_pack_id ev = Some (lit "abc") ∧
        IncomingGroupSticker.sticker_id ev = Some (lit "7") ∧
        IncomingGroupSticker.sticker_url ev = None ∧
        IncomingGroupSticker.sticker_source ev = None)) ∧
  (∀ extras,
     Forall (λ item, is_Some (item_key item) ∧ is_Some (item_val item))
       (findAll "item" extras) →
     ∃ extras_map,
       IncomingGroupSticker.parse_extras (Some extras) = Returned extras_map ∧
       ∀ item k, item ∈ findAll "item" extras → item_key item = Some k →
                 is_Some (extras_map !! k)).
Proof.
  split; [split|split].
  - intros [ev H]. unfold IncomingGroupSticker.init in H.
    bind_inv H. split; [by eexists|].
    destruct (find "content" data) as [content|] eqn:Hcontent; [|by bind_inv H].
    cbn [getattr mbind outcome_bind] in H.
    bind_inv H. unfold IncomingGroupSticker.parse_extras in Ha0.
    destruct (find "extras" content) as [extras|] eqn:Hextras; [|done].
    cbn [getattr mbind outcome_bind] in Ha0.
    apply parse_items_Returned_shape in Ha0.
    bind_inv H. bind_inv H.
    apply getitem_Returned in Ha1. split; [by eexists|].
    apply subscript_Returned in Ha2 as (g & Hg & Hjid). split; [exists g; split; [done | by eexists]|].
    cbn [getattr mbind outcome_bind] in H.
    destruct (find "images" content) as [images|] eqn:Himages; [|done].
    cbn [getattr mbind outcome_bind] in H.
    destruct (find "uris" content) as [uris|] eqn:Huris; [|done].
    bind_inv H.
    apply sticker_uris_Returned in Ha3 as (tags & Htags & Hall).
    exists content, extras, images, uris, tags. repeat (split; [done|]).
    clear -Hall. induction Hall as [|? ? ? ? (? & _)]; constructor; [by eexists | done].
  - intros ([base Hb] & [from Hf%getitem_Returned] &
            (g & Hg & [jid Hjid%getitem_Returned]) &
            content & extras & images & uris & tags &
            Hc & He & Hitems & Hi & Hu & Htags & Hall).
    unfold IncomingGroupSticker.init, IncomingGroupSticker.parse_extras.
    destruct (parse_items_returns ∅ _ Hitems) as [m Hm].
    assert (∃ us, comprehension IncomingGroupSticker.Uri.init (contents uris) = Returned us)
      as [us Hus].
    { rewrite Htags. clear -Hall.
      induction Hall as [|t tags [pl Hpl%getitem_Returned] _ [us IH]]; [by exists []|].
      eexists. rewrite fmap_cons. simpl. rewrite Hpl. simpl. by rewrite IH. }
    rewrite Hb, Hc. cbn [mbind outcome_bind getattr]. rewrite He.
    cbn [mbind outcome_bind getattr]. rewrite Hm. cbn [mbind outcome_bind].
    rewrite Hf. cbn [mbind outcome_bind]. rewrite Hg. cbn [mbind outcome_bind subscript].
    rewrite Hjid. cbn [mbind outcome_bind getattr]. rewrite Hi.
    cbn [mbind outcome_bind getattr]. rewrite Hu, Hus. by eexists.
  - intros ev H.
    destruct (sticker_init_table _ _ _ H) as (content & m & Hc & Hm & H1 & H2 & H3 & H4).
    exists content, m. repeat (split; [done|]). split.
    + intros extras item k He Hin Hk. rewrite He in Hm.
      unfold IncomingGroupSticker.parse_extras in Hm.
      cbn [getattr mbind outcome_bind] in Hm.
      eapply parse_items_keeps_keys; [done|]. right. by exists item.
    + repeat (split; [done|]).
      intros ->. rewrite H1, H2, H3, H4. by vm_compute.
  - intros extras Hitems. unfold IncomingGroupSticker.parse_extras. simpl.
    destruct (parse_items_returns ∅ _ Hitems) as [m Hm].
    exists m. split; [done|]. intros item k Hin Hk.
    eapply parse_items_keeps_keys; [done|]. right. by exists item.
Qed.

(** A sticker whose extras have the key [origin], which no field reads,
    besides [sticker_pack_id = abc] and [sticker_id = 7]: it is decoded, the
    two fields are read and the other two are [None], and [origin] is in the
    table. *)
Lemma sticker_fields_from_extras_table_witness :
  returns (IncomingGroupSticker.init base_returns sticker_with_unknown_key) ∧
  IncomingGroupSticker.init base_returns sticker_with_unknown_key
  = Returned {| IncomingGroupSticker.base := ();
                IncomingGroupSticker.from_jid := lit "1100221067977_g@groups.kik.com";
                IncomingGroupSticker.group_jid := lit "1100221067977_g@groups.kik.com";
                IncomingGroupSticker.sticker_pack_id := Some (lit "abc");
                IncomingGroupSticker.sticker_url := None;
                IncomingGroupSticker.sticker_id := Some (lit "7");
                IncomingGroupSticker.sticker_source := None;
                IncomingGroupSticker.png_preview := None;
                IncomingGroupSticker.uris :=
                  [ {| IncomingGroupSticker.Uri.platform := lit "cards";
                       IncomingGroupSticker.Uri.url := lit "https://x" |} ] |} ∧
  (find "content" sticker_with_unknown_key ≫= find "extras")
    ≫= (λ extras, Some (IncomingGroupSticker.parse_extras (Some extras)))
  = Some (Returned {[ Some (lit "sticker_pack_id") := lit "abc";
                      Some (lit "origin") := lit "keyboard";
                      Some (lit "sticker_id") := lit "7" ]}).
Proof.
  split; [|split; vm_compute; reflexivity].
  apply (proj1 (sticker_fields_from_extras_table base_returns sticker_with_unknown_key)).
  split; [by eexists|]. split; [vm_compute; by eexists|].
  split; [eexists; split; [vm_compute; reflexivity | vm_compute; by eexists]|].
  eexists _, _, _, _, [_].
  split; [vm_compute; reflexivity|]. split; [vm_compute; reflexivity|].
  split; [vm_compute; repeat (constructor; [split; by eexists|]); constructor|].
  split; [vm_compute; reflexivity|]. split; [vm_compute; reflexivity|].
  split; [vm_compute; reflexivity|].
  vm_compute. repeat (constructor; [by eexists|]). constructor.
Defined.

(** The sticker with exactly the extras [sticker_pack_id = abc] and
    [sticker_id = 7]. *)
Example sticker_with_two_extras :
  IncomingGroupSticker.init base_returns sticker
  = Returned {| IncomingGroupSticker.base := ();
                IncomingGroupSticker.from_jid := lit "1100221067977_g@groups.kik.com";
                IncomingGroupSticker.group_jid := lit "1100221067977_g@groups.kik.com";
                IncomingGroupSticker.sticker_pack_id := Some (lit "abc");
                IncomingGroupSticker.sticker_url := None;
                IncomingGroupSticker.sticker_id := Some (lit "7");
                IncomingGroupSticker.sticker_source := None;
                IncomingGroupSticker.png_preview := Some (lit "iVBOR");
                IncomingGroupSticker.uris :=
                  [ {| IncomingGroupSticker.Uri.platform := lit "cards";
                       IncomingGroupSticker.Uri.url := lit "https://x" |} ] |}.
Proof. vm_compute. reflexivity. Qed.

(** The table of the sticker above, and one with a key that no field reads. *)
Example sticker_extras_table :
  IncomingGroupSticker.parse_extras (find "extras" sticker)
  = Returned {[ Some (lit "sticker_pack_id") := lit "abc";
                Some (lit "sticker_id") := lit "7" ]}.
Proof. vm_compute. reflexivity. Qed.

Example extras_unknown_key :
  IncomingGroupSticker.parse_extras (Some extras_with_duplicate)
  = Returned {[ Some (lit "sticker_id") := lit "8";
                Some (lit "origin") := lit "keyboard" ]}.
Proof. vm_compute. reflexivity. Qed.

(** An item without a [val] element is the one thing in the extras that
    makes the decoder raise. *)
Example extras_item_without_val :
  IncomingGroupSticker.parse_extras
    (Some (tag "extras" []
             [element "item" [] [element "key" [] [text_node "sticker_id"]]]))
  = Raised (AttributeError "'NoneType' object has no attribute 'text'").
Proof. vm_compute. reflexivity. Qed.
